(** * stratatools: the cartridge EEPROM manager ([stratatools/manager.py])

    A shallow embedding of [Manager] and of the parts of Python's [struct],
    [bytearray] and [datetime] that it uses, followed by the properties of the
    encode/decode pipeline.

    Conventions.
    - A byte is a [Byte.byte]; a [bytes] value or a slice copy is a
      [list byte].
    - A [bytearray] is a mutable object: it lives in a store ([gmap] from
      references to byte lists), and the methods that receive one receive its
      reference.  [encrypt] and [decrypt] bind a second name to the object
      they are given, so every read through either name sees the writes made
      through the other.
    - A Python [float] is modelled by its IEEE-754 binary64 bit pattern, an
      integer below [2^64]; [struct]'s ["<d"] writes that pattern
      little-endian.
    - A [str] is modelled by the byte sequence of its UTF-8 encoding, held in
      a [string].
    - Exceptions are values of [exn]; a computation returns the store it
      reached together with [Ok v] or [Raise e]. *)

From Stdlib Require Import ZArith Lia List.
From Stdlib.Strings Require Import Byte.
From stdpp Require Import base option list gmap strings.

Local Open Scope Z_scope.

(** ** Bytes and integers *)

Definition byte_to_Z (b : byte) : Z := Z.of_N (Byte.to_N b).

Definition byte_of_Z (z : Z) : byte :=
  match Byte.of_N (Z.to_N (z mod 256)) with
  | Some b => b
  | None => x00
  end.

(** [~b & 0xff] on a byte [b]. *)
Definition complement (b : byte) : byte :=
  byte_of_Z (Z.land (Z.lnot (byte_to_Z b)) 0xff).

(** [b ^ (1 << k)]: the byte [b] with bit [k] flipped. *)
Definition flip_bit (k : Z) (b : byte) : byte :=
  byte_of_Z (Z.lxor (byte_to_Z b) (Z.shiftl 1 k)).

(** Little-endian encoding of [v] on [n] bytes and its inverse. *)
Fixpoint le_bytes (n : nat) (v : Z) : list byte :=
  match n with
  | O => []
  | S n' => byte_of_Z v :: le_bytes n' (Z.shiftr v 8)
  end.

Fixpoint le_int (bs : list byte) : Z :=
  match bs with
  | [] => 0
  | b :: bs' => byte_to_Z b + 256 * le_int bs'
  end.

(** Python's [b[i:j]] for [0 <= i <= j]: indices past the end are clamped. *)
Definition slice (i j : nat) (b : list byte) : list byte :=
  take (j - i) (drop i b).

(** Python's [b[i:j] = xs] on a bytearray: the range is replaced, and the
    object changes length when [xs] has not the length of the range. *)
Definition set_slice (i j : nat) (xs b : list byte) : list byte :=
  take i b ++ xs ++ drop j b.

(** What [struct.pack_into] does to a buffer that has room: the bytes [bs]
    replace those at [off .. off + len(bs)]. *)
Definition overwrite (off : nat) (bs b : list byte) : list byte :=
  take off b ++ bs ++ drop (off + length bs) b.

(** ** Exceptions *)

Inductive exn : Type :=
  | InvalidContentChecksum (stored computed : Z)
      (* Exception("invalid content checksum: should have .. but have ..") *)
  | InvalidCryptedContentChecksum
      (* Exception("invalid crypted content checksum") *)
  | InvalidQuantityChecksum
      (* Exception("invalid current material quantity checksum") *)
  | StructError            (* struct.error *)
  | IndexError
  | ValueError
  | OverflowError
  | UnknownMaterialError
  | InvalidReference.      (* a reference to no object: unreachable from Python *)

(** The checksum failures are what the specification calls [IntegrityError]. *)
Definition IntegrityError (e : exn) : Prop :=
  match e with
  | InvalidContentChecksum _ _ | InvalidCryptedContentChecksum
  | InvalidQuantityChecksum => True
  | _ => False
  end.

Inductive result (A : Type) : Type :=
  | Ok (a : A)
  | Raise (e : exn).
Arguments Ok {A} a.
Arguments Raise {A} e.

Definition result_bind {A B} (r : result A) (f : A → result B) : result B :=
  match r with
  | Ok a => f a
  | Raise e => Raise e
  end.

#[global] Instance result_ret : MRet result := λ A a, Ok a.
#[global] Instance result_mbind : MBind result := λ A B f r, result_bind r f.

(** ** The store of bytearrays and the monad of the methods *)

Definition loc := positive.
Abbreviation heap := (gmap positive (list byte)).

Definition M (A : Type) : Type := heap → heap * result A.

#[global] Instance M_ret : MRet M := λ A a h, (h, Ok a).
#[global] Instance M_bind : MBind M := λ A B f m h,
  match m h with
  | (h', Ok a) => f a h'
  | (h', Raise e) => (h', Raise e)
  end.

Definition raise {A} (e : exn) : M A := λ h, (h, Raise e).

Definition lift {A} (r : result A) : M A := λ h, (h, r).

(** [bytearray(n)]: a new object of [n] zero bytes. *)
Definition new_bytearray (n : nat) : M loc := λ h,
  let l := fresh (dom h) in (<[l := replicate n x00]> h, Ok l).

Definition load (l : loc) : M (list byte) := λ h,
  match h !! l with
  | Some b => (h, Ok b)
  | None => (h, Raise InvalidReference)
  end.

Definition store (l : loc) (b : list byte) : M unit := λ h,
  (<[l := b]> h, Ok tt).

(** [buf[i:j]] read through a reference: a fresh copy. *)
Definition get_slice (l : loc) (i j : nat) : M (list byte) :=
  b ← load l; mret (slice i j b).

(** [buf[i:j] = xs] through a reference. *)
Definition assign_slice (l : loc) (i j : nat) (xs : list byte) : M unit :=
  b ← load l; store l (set_slice i j xs b).

(** ** [struct] *)

(** The ["<Ns"] format: the value is cut or padded with zero bytes to [n]. *)
Definition pack_s (n : nat) (bs : list byte) : list byte :=
  take n (bs ++ replicate n x00).

(** ["<H"] and ["<B"] refuse a value outside their range. *)
Definition pack_H (v : Z) : result (list byte) :=
  if (0 <=? v) && (v <=? 0xffff) then Ok (le_bytes 2 v) else Raise StructError.

Definition pack_B (v : Z) : result (list byte) :=
  if (0 <=? v) && (v <=? 0xff) then Ok (le_bytes 1 v) else Raise StructError.

(** ["<d"] on a float given by its bit pattern. *)
Definition pack_d (x : Z) : list byte := le_bytes 8 x.

(** [struct.pack_into]: the packed bytes overwrite [buf[off:off+len]] in
    place; the buffer is never resized. *)
Definition pack_into (l : loc) (off : nat) (bs : list byte) : M unit :=
  b ← load l;
  if decide (off + length bs ≤ length b)%nat
  then store l (overwrite off bs b)
  else raise StructError.

(** [struct.unpack_from] of [n] bytes at [off] of a bytes-like value. *)
Definition unpack_from (n off : nat) (b : list byte) : result (list byte) :=
  if decide (off + n ≤ length b)%nat
  then Ok (slice off (off + n) b)
  else Raise StructError.

(** [struct.unpack("<H", bs)[0]]: the argument must have two bytes. *)
Definition unpack_H (bs : list byte) : result Z :=
  if decide (length bs = 2%nat) then Ok (le_int bs) else Raise StructError.

(** ** Key derivation *)

Definition index (b : list byte) (i : nat) : result byte :=
  match b !! i with
  | Some x => Ok x
  | None => Raise IndexError
  end.

Definition build_key (cartridge_key machine_number eeprom_uid : list byte)
  : result (list byte) :=
  k0 ← index cartridge_key 0;
  k1 ← index cartridge_key 2;
  k2 ← index eeprom_uid 2;
  k3 ← index cartridge_key 6;
  k4 ← index machine_number 0;
  k5 ← index machine_number 2;
  k6 ← index eeprom_uid 6;
  k7 ← index machine_number 6;
  k8 ← index machine_number 7;
  k9 ← index eeprom_uid 1;
  k10 ← index machine_number 3;
  k11 ← index machine_number 1;
  k12 ← index cartridge_key 7;
  k13 ← index eeprom_uid 5;
  k14 ← index cartridge_key 3;
  k15 ← index cartridge_key 1;
  mret [complement k0; complement k1; complement k2; complement k3;
        complement k4; complement k5; complement k6; complement k7;
        complement k8; complement k9; complement k10; complement k11;
        complement k12; complement k13; complement k14; complement k15].

(** ** Floats, by their binary64 bit pattern *)

(** [float(n)] for a Python int, as ["<d"] converts its argument: the nearest
    binary64 value, ties to even; an int too large makes [struct] fail. *)
Definition float_of_int (n : Z) : result Z :=
  if n =? 0 then Ok 0 else
  let a := Z.abs n in
  let s := if n <? 0 then 1 else 0 in
  let e := Z.log2 a in
  let '(m, e') :=
    if e <=? 52 then (Z.shiftl a (52 - e), e)
    else
      let sh := e - 52 in
      let q := Z.shiftr a sh in
      let r := Z.land a (Z.ones sh) in
      let half := Z.shiftl 1 (sh - 1) in
      let q' := if (half <? r) || ((r =? half) && Z.odd q) then q + 1 else q in
      if q' =? 2 ^ 53 then (2 ^ 52, e + 1) else (q', e) in
  if 1023 <? e' then Raise StructError
  else Ok (s * 2 ^ 63 + (e' + 1023) * 2 ^ 52 + (m - 2 ^ 52)).

(** [int(x)] for a float: truncation toward zero; [nan] and the infinities
    have no integer value. *)
Definition int_of_float (x : Z) : result Z :=
  let s := Z.land (Z.shiftr x 63) 1 in
  let e := Z.land (Z.shiftr x 52) 0x7ff in
  let f := Z.land x (Z.ones 52) in
  if e =? 0x7ff then
    (if f =? 0 then Raise OverflowError else Raise ValueError)
  else
    let mag :=
      if e =? 0 then 0
      else if 1075 <=? e then Z.shiftl (2 ^ 52 + f) (e - 1075)
      else Z.shiftr (2 ^ 52 + f) (1075 - e) in
    Ok (if s =? 1 then - mag else mag).

(** ** [datetime] *)

Record datetime : Type := mk_datetime {
  year : Z; month : Z; day : Z;
  hour : Z; minute : Z; second : Z;
  microsecond : Z
}.

Definition is_leap (y : Z) : bool :=
  (y mod 4 =? 0) && (negb (y mod 100 =? 0) || (y mod 400 =? 0)).

Definition days_in_month (y m : Z) : Z :=
  if m =? 2 then (if is_leap y then 29 else 28)
  else if (m =? 4) || (m =? 6) || (m =? 9) || (m =? 11) then 30
  else 31.

Definition valid_datetime (d : datetime) : bool :=
  (1 <=? year d) && (year d <=? 9999) &&
  (1 <=? month d) && (month d <=? 12) &&
  (1 <=? day d) && (day d <=? days_in_month (year d) (month d)) &&
  (0 <=? hour d) && (hour d <=? 23) &&
  (0 <=? minute d) && (minute d <=? 59) &&
  (0 <=? second d) && (second d <=? 59) &&
  (0 <=? microsecond d) && (microsecond d <=? 999999).

(** [datetime.datetime(y, m, d, hh, mm, ss)]: the fields are checked, the
    microsecond is zero. *)
Definition datetime_new (y m d hh mm ss : Z) : result datetime :=
  let dt := mk_datetime y m d hh mm ss 0 in
  if valid_datetime dt then Ok dt else Raise ValueError.

(** ** Strings *)

Definition encode_utf8 (s : string) : list byte := String.list_byte_of_string s.

(** Well-formed UTF-8, as Python's strict decoder accepts it: no overlong
    form, no surrogate, nothing above U+10FFFF. *)
Definition in_range (lo hi : Z) (b : byte) : bool :=
  (lo <=? byte_to_Z b) && (byte_to_Z b <=? hi).

Fixpoint utf8_valid (bs : list byte) : bool :=
  match bs with
  | [] => true
  | b0 :: r0 =>
    if in_range 0x00 0x7f b0 then utf8_valid r0
    else match r0 with
    | [] => false
    | b1 :: r1 =>
      if in_range 0xc2 0xdf b0 then in_range 0x80 0xbf b1 && utf8_valid r1
      else match r1 with
      | [] => false
      | b2 :: r2 =>
        if in_range 0xe0 0xef b0 then
          in_range (if in_range 0xe0 0xe0 b0 then 0xa0 else 0x80)
                   (if in_range 0xed 0xed b0 then 0x9f else 0xbf) b1
          && in_range 0x80 0xbf b2 && utf8_valid r2
        else match r2 with
        | [] => false
        | b3 :: r3 =>
          in_range 0xf0 0xf4 b0
          && in_range (if in_range 0xf0 0xf0 b0 then 0x90 else 0x80)
                      (if in_range 0xf4 0xf4 b0 then 0x8f else 0xbf) b1
          && in_range 0x80 0xbf b2 && in_range 0x80 0xbf b3 && utf8_valid r3
        end
      end
    end
  end.

(** Assigning a [bytes] value to a protobuf [string] field decodes it as
    UTF-8 and fails on bytes that are not. *)
Definition decode_utf8 (bs : list byte) : result string :=
  if utf8_valid bs then Ok (String.string_of_list_byte bs) else Raise ValueError.

(** [bs.split(b'\x00')[0]]: the bytes before the first zero byte. *)
Fixpoint split_nul (bs : list byte) : list byte :=
  match bs with
  | [] => []
  | b :: bs' => if Byte.eqb b x00 then [] else b :: split_nul bs'
  end.

(** Hexadecimal text. *)
Definition hex_value (c : byte) : option Z :=
  if in_range 0x30 0x39 c then Some (byte_to_Z c - 0x30)
  else if in_range 0x61 0x66 c then Some (byte_to_Z c - 0x61 + 10)
  else if in_range 0x41 0x46 c then Some (byte_to_Z c - 0x41 + 10)
  else None.

Definition is_space (c : byte) : bool :=
  in_range 0x09 0x0d c || in_range 0x20 0x20 c.

(** [bytearray.fromhex(s)]: two digits per byte, ASCII whitespace skipped
    between bytes, anything else refused. *)
Fixpoint fromhex (s : list byte) : result (list byte) :=
  match s with
  | [] => Ok []
  | c :: s' =>
    if is_space c then fromhex s'
    else match hex_value c, s' with
    | Some hi, d :: s'' =>
      match hex_value d with
      | Some lo => bs ← fromhex s''; mret (byte_of_Z (hi * 16 + lo) :: bs)
      | None => Raise ValueError
      end
    | _, _ => Raise ValueError
    end
  end.

Definition hex_digit (v : Z) : byte :=
  if v <? 10 then byte_of_Z (0x30 + v) else byte_of_Z (0x61 + v - 10).

(** [bs.hex()]: two lowercase digits per byte. *)
Definition hex (bs : list byte) : list byte :=
  flat_map (λ b, [hex_digit (byte_to_Z b / 16); hex_digit (byte_to_Z b mod 16)]) bs.

(** ** The manager *)

Section Manager.

(** The collaborators of [Manager]: [self.checksum.checksum],
    [self.crypto.encrypt] and [self.crypto.decrypt], and protobuf's
    [Timestamp] with its two conversions. *)
Variable checksum : list byte → Z.
Variable crypto_encrypt crypto_decrypt : list byte → list byte → list byte.
Variable Timestamp : Type.
Variable ToDatetime : Timestamp → datetime.
Variable FromDatetime : datetime → Timestamp.

(** The two directions of the material table of [material.py]. *)
Variable id_from_name : string → option Z.
Variable name_from_id : Z → option string.

(** Modelled from the spec: [material.get_id_from_name] is not part of the
    sources at hand; the Material Table resolves a name to its numeric
    identifier and fails with [UnknownMaterialError] on an unknown name. *)
Definition get_id_from_name (name : string) : result Z :=
  match id_from_name name with
  | Some i => Ok i
  | None => Raise UnknownMaterialError
  end.

(** Modelled from the spec: [material.get_name_from_id] is not part of the
    sources at hand; an unknown identifier fails with
    [UnknownMaterialError]. *)
Definition get_name_from_id (i : Z) : result string :=
  match name_from_id i with
  | Some n => Ok n
  | None => Raise UnknownMaterialError
  end.

(** [cartridge_pb2.Cartridge]. *)
Record Cartridge : Type := mk_Cartridge {
  serial_number : Z;                 (* double *)
  material_name : string;
  manufacturing_lot : string;
  manufacturing_date : Timestamp;
  last_use_date : Timestamp;
  initial_material_quantity : Z;     (* double *)
  current_material_quantity : Z;     (* double *)
  key_fragment : string;             (* bytes holding hexadecimal text *)
  version : Z;
  signature : string
}.

(** The six arguments of ["<HBBBBH"]. *)
Definition pack_datetime (dt : datetime) : result (list byte) :=
  y ← pack_H (year dt - 1900);
  mo ← pack_B (month dt);
  d ← pack_B (day dt);
  hh ← pack_B (hour dt);
  mi ← pack_B (minute dt);
  ss ← pack_H (second dt);
  mret (y ++ mo ++ d ++ hh ++ mi ++ ss).

Definition unpack_datetime (bs : list byte) : result datetime :=
  datetime_new (le_int (slice 0 2 bs) + 1900)
               (le_int (slice 2 3 bs)) (le_int (slice 3 4 bs))
               (le_int (slice 4 5 bs)) (le_int (slice 5 6 bs))
               (le_int (slice 6 8 bs)).

Definition pack (cartridge : Cartridge) : M loc :=
  eeprom ← new_bytearray 0x71;
  (* serial number *)
  pack_into eeprom 0x00 (pack_d (serial_number cartridge));;
  (* material id *)
  id ← lift (get_id_from_name (material_name cartridge));
  idf ← lift (float_of_int id);
  pack_into eeprom 0x08 (pack_d idf);;
  (* manufacturing lot *)
  pack_into eeprom 0x10 (pack_s 20 (encode_utf8 (manufacturing_lot cartridge)));;
  (* version *)
  v ← lift (pack_H (version cartridge));
  pack_into eeprom 0x24 v;;
  (* manufacturing date *)
  mfg ← lift (pack_datetime (ToDatetime (manufacturing_date cartridge)));
  pack_into eeprom 0x28 mfg;;
  (* last use date *)
  lu ← lift (pack_datetime (ToDatetime (last_use_date cartridge)));
  pack_into eeprom 0x30 lu;;
  pack_into eeprom 0x38 (pack_d (initial_material_quantity cartridge));;
  (* plaintext checksum *)
  content ← get_slice eeprom 0x00 0x40;
  crc ← lift (pack_H (checksum content));
  pack_into eeprom 0x40 crc;;
  (* key *)
  key ← lift (fromhex (encode_utf8 (key_fragment cartridge)));
  pack_into eeprom 0x48 (pack_s 8 key);;
  (* key checksum *)
  stored_key ← get_slice eeprom 0x48 0x50;
  key_crc ← lift (pack_H (checksum stored_key));
  pack_into eeprom 0x50 key_crc;;
  (* current material quantity *)
  pack_into eeprom 0x58 (pack_d (current_material_quantity cartridge));;
  (* checksum of the current material quantity *)
  quantity ← get_slice eeprom 0x58 0x60;
  quantity_crc ← lift (pack_H (checksum quantity));
  pack_into eeprom 0x62 quantity_crc;;
  (* signature *)
  pack_into eeprom 0x68 (pack_s 9 (encode_utf8 (signature cartridge)));;
  mret eeprom.

(** The body of [unpack] reads its argument and writes nothing: it is a
    function of the bytes the object holds. *)
Definition unpack_bytes (cartridge_packed : list byte) : result Cartridge :=
  (* plaintext checksum *)
  stored ← unpack_H (slice 0x40 0x42 cartridge_packed);
  (if checksum (slice 0x00 0x40 cartridge_packed) =? stored then Ok tt
   else Raise (InvalidContentChecksum stored
                 (checksum (slice 0x00 0x40 cartridge_packed))));;
  (* current material quantity checksum *)
  stored_quantity ← unpack_H (slice 0x62 0x64 cartridge_packed);
  (if checksum (slice 0x58 0x60 cartridge_packed) =? stored_quantity then Ok tt
   else Raise InvalidQuantityChecksum);;
  serial ← unpack_from 8 0x00 cartridge_packed;
  idf ← unpack_from 8 0x08 cartridge_packed;
  id ← int_of_float (le_int idf);
  name ← get_name_from_id id;
  lot ← unpack_from 20 0x10 cartridge_packed;
  mfg ← unpack_from 8 0x28 cartridge_packed;
  mfg_datetime ← unpack_datetime mfg;
  use ← unpack_from 8 0x30 cartridge_packed;
  use_datetime ← unpack_datetime use;
  initial ← unpack_from 8 0x38 cartridge_packed;
  ver ← unpack_from 2 0x24 cartridge_packed;
  key ← unpack_from 8 0x48 cartridge_packed;
  current ← unpack_from 8 0x58 cartridge_packed;
  sig ← unpack_from 9 0x68 cartridge_packed;
  lot_str ← decode_utf8 (split_nul lot);
  sig_str ← decode_utf8 sig;
  mret {| serial_number := le_int serial;
          material_name := name;
          manufacturing_lot := lot_str;
          manufacturing_date := FromDatetime mfg_datetime;
          last_use_date := FromDatetime use_datetime;
          initial_material_quantity := le_int initial;
          current_material_quantity := le_int current;
          key_fragment := String.string_of_list_byte (hex key);
          version := le_int ver;
          signature := sig_str |}.

Definition unpack (cartridge_packed : loc) : M Cartridge :=
  b ← load cartridge_packed; lift (unpack_bytes b).

Definition encrypt (machine_number eeprom_uid : list byte)
           (cartridge_packed : loc) : M loc :=
  let cartridge_crypted := cartridge_packed in
  (* build the key *)
  fragment ← get_slice cartridge_packed 0x48 0x50;
  key ← lift (build_key fragment machine_number eeprom_uid);
  (* encrypt content *)
  content ← get_slice cartridge_packed 0x00 0x40;
  pack_into cartridge_crypted 0x00 (pack_s 64 (crypto_encrypt key content));;
  (* checksum crypted content *)
  content' ← get_slice cartridge_packed 0x00 0x40;
  crc ← lift (pack_H (checksum content'));
  pack_into cartridge_crypted 0x46 crc;;
  (* encrypt current material quantity *)
  quantity ← get_slice cartridge_packed 0x58 0x60;
  pack_into cartridge_crypted 0x58 (pack_s 8 (crypto_encrypt key quantity));;
  (* checksum crypted current material quantity *)
  quantity' ← get_slice cartridge_packed 0x58 0x60;
  quantity_crc ← lift (pack_H (checksum quantity'));
  pack_into cartridge_crypted 0x60 quantity_crc;;
  mret cartridge_crypted.

Definition decrypt (machine_number eeprom_uid : list byte)
           (cartridge_crypted : loc) : M loc :=
  let cartridge_packed := cartridge_crypted in
  (* build the key *)
  fragment ← get_slice cartridge_crypted 0x48 0x50;
  key ← lift (build_key fragment machine_number eeprom_uid);
  (* validate crypted content checksum *)
  content ← get_slice cartridge_crypted 0x00 0x40;
  token ← get_slice cartridge_crypted 0x46 0x48;
  stored ← lift (unpack_H token);
  (if checksum content =? stored then mret tt
   else raise InvalidCryptedContentChecksum);;
  (* decrypt content *)
  content' ← get_slice cartridge_crypted 0x00 0x40;
  assign_slice cartridge_packed 0x00 0x40 (crypto_decrypt key content');;
  (* validate crypted current material quantity checksum *)
  quantity ← get_slice cartridge_crypted 0x58 0x60;
  quantity_token ← get_slice cartridge_crypted 0x60 0x62;
  stored_quantity ← lift (unpack_H quantity_token);
  (if checksum quantity =? stored_quantity then mret tt
   else raise InvalidQuantityChecksum);;
  (* decrypt current material quantity *)
  quantity' ← get_slice cartridge_crypted 0x58 0x60;
  assign_slice cartridge_packed 0x58 0x60 (crypto_decrypt key quantity');;
  mret cartridge_packed.

Definition encode (machine_number eeprom_uid : list byte)
           (cartridge : Cartridge) : M loc :=
  cartridge_packed ← pack cartridge;
  cartridge_crypted ← encrypt machine_number eeprom_uid cartridge_packed;
  mret cartridge_crypted.

Definition decode (machine_number eeprom_uid : list byte)
           (cartridge_crypted : loc) : M Cartridge :=
  cartridge_packed ← decrypt machine_number eeprom_uid cartridge_crypted;
  cartridge ← unpack cartridge_packed;
  mret cartridge.

End Manager.

Arguments mk_Cartridge {Timestamp}.
Arguments serial_number {Timestamp}.
Arguments material_name {Timestamp}.
Arguments manufacturing_lot {Timestamp}.
Arguments manufacturing_date {Timestamp}.
Arguments last_use_date {Timestamp}.
Arguments initial_material_quantity {Timestamp}.
Arguments current_material_quantity {Timestamp}.
Arguments key_fragment {Timestamp}.
Arguments version {Timestamp}.
Arguments signature {Timestamp}.

(** The record [c] with another manufacturing lot. *)
Definition with_manufacturing_lot {Timestamp : Type} (c : Cartridge Timestamp)
    (lot : string) : Cartridge Timestamp :=
  {| serial_number := serial_number c;
     material_name := material_name c;
     manufacturing_lot := lot;
     manufacturing_date := manufacturing_date c;
     last_use_date := last_use_date c;
     initial_material_quantity := initial_material_quantity c;
     current_material_quantity := current_material_quantity c;
     key_fragment := key_fragment c;
     version := version c;
     signature := signature c |}.

(** The record [c] with another key fragment. *)
Definition with_key_fragment {Timestamp : Type} (c : Cartridge Timestamp)
    (key : string) : Cartridge Timestamp :=
  {| serial_number := serial_number c;
     material_name := material_name c;
     manufacturing_lot := manufacturing_lot c;
     manufacturing_date := manufacturing_date c;
     last_use_date := last_use_date c;
     initial_material_quantity := initial_material_quantity c;
     current_material_quantity := current_material_quantity c;
     key_fragment := key;
     version := version c;
     signature := signature c |}.

(** The record [c] with another signature. *)
Definition with_signature {Timestamp : Type} (c : Cartridge Timestamp)
    (sig : string) : Cartridge Timestamp :=
  {| serial_number := serial_number c;
     material_name := material_name c;
     manufacturing_lot := manufacturing_lot c;
     manufacturing_date := manufacturing_date c;
     last_use_date := last_use_date c;
     initial_material_quantity := initial_material_quantity c;
     current_material_quantity := current_material_quantity c;
     key_fragment := key_fragment c;
     version := version c;
     signature := sig |}.

(** ** A concrete set of collaborators, to run the manager on *)

Module Sample.

(** The sum of the bytes, on 16 bits. *)
Definition sum16 (bs : list byte) : Z :=
  fold_right (λ b acc, (byte_to_Z b + acc) mod 0x10000) 0 bs.

(** A byte-wise cipher: every byte is xored with the first key byte.  It
    keeps lengths and is its own inverse. *)
Definition xor_cipher (key bs : list byte) : list byte :=
  match key with
  | [] => bs
  | k :: _ => map (λ b, byte_of_Z (Z.lxor (byte_to_Z b) (byte_to_Z k))) bs
  end.

Definition materials (name : string) : option Z :=
  if String.eqb name "ABS" then Some 0
  else if String.eqb name "PC-ABS" then Some 17
  else None.

Definition material_names (i : Z) : option string :=
  if i =? 0 then Some "ABS"%string
  else if i =? 17 then Some "PC-ABS"%string
  else None.

(** Timestamps kept as the [datetime] they convert to. *)
Definition cartridge : Cartridge datetime :=
  {| serial_number := 0x40934a0000000000;   (* 1234.5 *)
     material_name := "PC-ABS";
     manufacturing_lot := "LOT-42";
     manufacturing_date := mk_datetime 2001 1 2 3 4 5 0;
     last_use_date := mk_datetime 2002 6 7 8 9 10 0;
     initial_material_quantity := 0x404c400000000000;   (* 56.5 *)
     current_material_quantity := 0x4045800000000000;   (* 43.0 *)
     key_fragment := "0123456789abcdef";
     version := 1;
     signature := "STRATASYS" |}.

(** The same cartridge with a material the table does not list. *)
Definition unknown_cartridge : Cartridge datetime :=
  {| serial_number := serial_number cartridge;
     material_name := "UNOBTAINIUM";
     manufacturing_lot := manufacturing_lot cartridge;
     manufacturing_date := manufacturing_date cartridge;
     last_use_date := last_use_date cartridge;
     initial_material_quantity := initial_material_quantity cartridge;
     current_material_quantity := current_material_quantity cartridge;
     key_fragment := key_fragment cartridge;
     version := version cartridge;
     signature := signature cartridge |}.

(** The same cartridge with a lot of 21 bytes, and with a short signature. *)
Definition long_lot_cartridge : Cartridge datetime :=
  with_manufacturing_lot cartridge "ABCDEFGHIJKLMNOPQRSTU".

Definition short_signature_cartridge : Cartridge datetime :=
  with_signature cartridge "ABC".

(** The same cartridge with its key fragment in uppercase hexadecimal. *)
Definition uppercase_key_cartridge : Cartridge datetime :=
  with_key_fragment cartridge "0123456789ABCDEF".

Definition machine_number : list byte :=
  [x01; x02; x03; x04; x05; x06; x07; x08].
Definition eeprom_uid : list byte :=
  [x11; x12; x13; x14; x15; x16; x17; x18].

Definition sample_encode (c : Cartridge datetime) : M loc :=
  encode sum16 xor_cipher datetime id materials machine_number eeprom_uid c.

Definition sample_decode (l : loc) : M (Cartridge datetime) :=
  decode sum16 xor_cipher datetime id material_names
         machine_number eeprom_uid l.

Definition sample_encrypt (l : loc) : M loc :=
  encrypt sum16 xor_cipher machine_number eeprom_uid l.

Definition sample_decrypt (l : loc) : M loc :=
  decrypt sum16 xor_cipher machine_number eeprom_uid l.

Definition sample_unpack (l : loc) : M (Cartridge datetime) :=
  unpack sum16 datetime id material_names l.

Definition sample_pack (c : Cartridge datetime) : M loc :=
  pack sum16 datetime id materials c.

(** The sample cartridge packed, and the image [encode] makes of it. *)
Definition packed : list byte :=
  Eval vm_compute in default [] ((sample_pack cartridge ∅).1 !! 1%positive).

Definition crypted : list byte :=
  Eval vm_compute in default [] ((sample_encode cartridge ∅).1 !! 1%positive).

End Sample.

(** ** Auxiliary notions of the statements

    Running a method on the object it was given.

    [wp l m Q b]: started in any store where [l] holds the bytes [b], the
    computation [m] ends in that store with only the object at [l] replaced,
    by bytes [b'], and with a result [r], such that [Q b' r]. *)

Definition wp {A} (l : loc) (m : M A) (Q : list byte → result A → Prop)
           (b : list byte) : Prop :=
  ∀ h : heap, h !! l = Some b →
    ∃ b' r, m h = (<[l := b']> h, r) ∧ Q b' r.

(** The table of the key derivation, as the specification prints it: output
    byte [i] comes from the listed input at the listed index. *)
Inductive source : Type := KeyFragment | MachineId | DeviceId.

Definition key_table : list (source * nat) :=
  [ (KeyFragment, 0); (KeyFragment, 2); (DeviceId, 2); (KeyFragment, 6);
    (MachineId, 0); (MachineId, 2); (DeviceId, 6); (MachineId, 6);
    (MachineId, 7); (DeviceId, 1); (MachineId, 3); (MachineId, 1);
    (KeyFragment, 7); (DeviceId, 5); (KeyFragment, 3); (KeyFragment, 1) ]%nat.

Definition select (src : source) (key_fragment machine_id device_id : list byte)
  : list byte :=
  match src with
  | KeyFragment => key_fragment
  | MachineId => machine_id
  | DeviceId => device_id
  end.

#[global] Instance byte_eq_decision : EqDecision byte := Byte.byte_eq_dec.

(** Two byte strings that hold the same bytes at the positions [idx]. *)
Definition agree_on (idx : list nat) (a b : list byte) : Prop :=
  ∀ i, i ∈ idx → a !! i = b !! i.

(** The bytes that [encrypt] and [decrypt] may rewrite: the header region,
    the two token slots and the quantity region. *)
Definition transformed (i : nat) : Prop :=
  (i < 0x40 ∨ 0x46 ≤ i < 0x48 ∨ 0x58 ≤ i < 0x62)%nat.

(** [b'] has the length of [b] and its bytes everywhere outside [P]. *)
Definition same_outside (P : nat → Prop) (b b' : list byte) : Prop :=
  length b' = length b ∧ ∀ i, ¬ P i → b' !! i = b !! i.

(** The bytes [encrypt] leaves in a buffer that held [b], when every step
    succeeds: each line is one [struct.pack_into] of the method, reading the
    buffer as the previous line left it. *)
Definition encrypted (checksum : list byte → Z)
    (crypto_encrypt : list byte → list byte → list byte)
    (key b : list byte) : list byte :=
  let b1 := overwrite 0x00 (pack_s 64 (crypto_encrypt key (slice 0x00 0x40 b))) b in
  let b2 := overwrite 0x46 (le_bytes 2 (checksum (slice 0x00 0x40 b1))) b1 in
  let b3 := overwrite 0x58 (pack_s 8 (crypto_encrypt key (slice 0x58 0x60 b2))) b2 in
  overwrite 0x60 (le_bytes 2 (checksum (slice 0x58 0x60 b3))) b3.

(** The bytes [decrypt] leaves in a buffer that held [b], when both checks
    pass. *)
Definition decrypted (crypto_decrypt : list byte → list byte → list byte)
    (key b : list byte) : list byte :=
  let b1 := set_slice 0x00 0x40 (crypto_decrypt key (slice 0x00 0x40 b)) b in
  set_slice 0x58 0x60 (crypto_decrypt key (slice 0x58 0x60 b1)) b1.

(** What [pack] needs of a record to succeed: a known material whose
    identifier converts to a float [idf], a version within 16 bits, dates
    that ["<HBBBBH"] accepts (packed as [mfg] and [lu]) and a key fragment
    that is hexadecimal text (of the bytes [key]). *)
Definition packable {Timestamp : Type} (ToDatetime : Timestamp → datetime)
    (id_from_name : string → option Z)
    (c : Cartridge Timestamp) (idf : Z) (mfg lu key : list byte) : Prop :=
  (∃ id, get_id_from_name id_from_name (material_name c) = Ok id ∧
         float_of_int id = Ok idf) ∧
  0 <= version c <= 0xffff ∧
  pack_datetime (ToDatetime (manufacturing_date c)) = Ok mfg ∧
  pack_datetime (ToDatetime (last_use_date c)) = Ok lu ∧
  fromhex (encode_utf8 (key_fragment c)) = Ok key.

(** The bytes of a buffer that [pack] has filled, field by field. *)
Definition layout {Timestamp : Type} (checksum : list byte → Z)
    (c : Cartridge Timestamp) (idf : Z) (mfg lu key : list byte)
    (b : list byte) : Prop :=
  length b = 0x71%nat ∧
  slice 0x00 0x08 b = pack_d (serial_number c) ∧
  slice 0x08 0x10 b = pack_d idf ∧
  slice 0x10 0x24 b = pack_s 20 (encode_utf8 (manufacturing_lot c)) ∧
  slice 0x24 0x26 b = le_bytes 2 (version c) ∧
  slice 0x28 0x30 b = mfg ∧
  slice 0x30 0x38 b = lu ∧
  slice 0x38 0x40 b = pack_d (initial_material_quantity c) ∧
  slice 0x40 0x42 b = le_bytes 2 (checksum (slice 0x00 0x40 b)) ∧
  slice 0x48 0x50 b = pack_s 8 key ∧
  slice 0x50 0x52 b = le_bytes 2 (checksum (slice 0x48 0x50 b)) ∧
  slice 0x58 0x60 b = pack_d (current_material_quantity c) ∧
  slice 0x62 0x64 b = le_bytes 2 (checksum (slice 0x58 0x60 b)) ∧
  slice 0x68 0x71 b = pack_s 9 (encode_utf8 (signature c)) ∧
  0 <= checksum (slice 0x00 0x40 b) <= 0xffff ∧
  0 <= checksum (slice 0x58 0x60 b) <= 0xffff.

(** The three checks of [decode], on the bytes they read. *)
Definition header_token_ok (checksum : list byte → Z) (b : list byte) : Prop :=
  checksum (slice 0x00 0x40 b) = le_int (slice 0x46 0x48 b).

Definition quantity_token_ok (checksum : list byte → Z) (b : list byte) : Prop :=
  checksum (slice 0x58 0x60 b) = le_int (slice 0x60 0x62 b).

Definition content_checksum_ok (checksum : list byte → Z) (b : list byte) : Prop :=
  checksum (slice 0x00 0x40 b) = le_int (slice 0x40 0x42 b).

(** The buffer between the two decryptions of [decrypt]. *)
Definition header_decrypted
    (crypto_decrypt : list byte → list byte → list byte)
    (key b : list byte) : list byte :=
  set_slice 0x00 0x40 (crypto_decrypt key (slice 0x00 0x40 b)) b.

(** The image [b] with bit [k] of its byte [i] flipped. *)
Definition tamper (i : nat) (k : Z) (b : list byte) : list byte :=
  alter (flip_bit k) i b.

(** A [datetime] at second precision. *)
Definition drop_microsecond (dt : datetime) : datetime :=
  mk_datetime (year dt) (month dt) (day dt) (hour dt) (minute dt) (second dt) 0.

(** The record [c] with its two dates cut to second precision: each is
    converted to a [datetime], loses its microseconds and is converted
    back. *)
Definition truncate_dates {Timestamp : Type}
    (ToDatetime : Timestamp → datetime) (FromDatetime : datetime → Timestamp)
    (c : Cartridge Timestamp) : Cartridge Timestamp :=
  {| serial_number := serial_number c;
     material_name := material_name c;
     manufacturing_lot := manufacturing_lot c;
     manufacturing_date :=
       FromDatetime (drop_microsecond (ToDatetime (manufacturing_date c)));
     last_use_date :=
       FromDatetime (drop_microsecond (ToDatetime (last_use_date c)));
     initial_material_quantity := initial_material_quantity c;
     current_material_quantity := current_material_quantity c;
     key_fragment := key_fragment c;
     version := version c;
     signature := signature c |}.

(** A binary64 bit pattern. *)
Definition is_float (x : Z) : Prop := 0 <= x < 2 ^ 64.

(** The records that the image holds without loss: floats that are bit
    patterns, a material that the table maps to an integer identifier (exact
    as a float) and back, a lot that fits its 20 bytes and has no zero byte,
    a version on 16 bits, dates from 1900 on, a key fragment that is the
    lowercase hexadecimal text of 8 bytes, and a signature of exactly 9
    bytes. *)
Definition stored_exactly {Timestamp : Type}
    (ToDatetime : Timestamp → datetime)
    (id_from_name : string → option Z) (name_from_id : Z → option string)
    (c : Cartridge Timestamp) : Prop :=
  is_float (serial_number c) ∧
  is_float (initial_material_quantity c) ∧
  is_float (current_material_quantity c) ∧
  (∃ id, id_from_name (material_name c) = Some id ∧
         - 2 ^ 53 < id < 2 ^ 53 ∧
         name_from_id id = Some (material_name c)) ∧
  (length (encode_utf8 (manufacturing_lot c)) ≤ 20)%nat ∧
  (x00 ∉ encode_utf8 (manufacturing_lot c)) ∧
  utf8_valid (encode_utf8 (manufacturing_lot c)) = true ∧
  0 <= version c <= 0xffff ∧
  valid_datetime (ToDatetime (manufacturing_date c)) = true ∧
  1900 <= year (ToDatetime (manufacturing_date c)) ∧
  valid_datetime (ToDatetime (last_use_date c)) = true ∧
  1900 <= year (ToDatetime (last_use_date c)) ∧
  (∃ raw, length raw = 8%nat ∧ encode_utf8 (key_fragment c) = hex raw) ∧
  length (encode_utf8 (signature c)) = 9%nat ∧
  utf8_valid (encode_utf8 (signature c)) = true.

(** The two slots that [encrypt] alone writes. *)
Definition token_slot (i : nat) : Prop :=
  (0x46 ≤ i < 0x48 ∨ 0x60 ≤ i < 0x62)%nat.

(** * Properties *)

(** ** Bytes, little-endian integers, slices *)

Lemma byte_to_Z_range b : 0 <= byte_to_Z b < 256.
Proof.
  unfold byte_to_Z. pose proof (Byte.to_N_bounded b). lia.
Qed.

Lemma byte_of_to_Z b : byte_of_Z (byte_to_Z b) = b.
Proof.
  unfold byte_of_Z. pose proof (byte_to_Z_range b).
  rewrite Z.mod_small by lia. unfold byte_to_Z.
  rewrite N2Z.id, Byte.of_to_N. reflexivity.
Qed.

Lemma byte_to_of_Z z : byte_to_Z (byte_of_Z z) = z mod 256.
Proof.
  unfold byte_of_Z, byte_to_Z.
  pose proof (Z.mod_pos_bound z 256 ltac:(lia)) as Hz.
  destruct (Byte.of_N (Z.to_N (z mod 256))) as [b|] eqn:E.
  - apply Byte.to_of_N in E. rewrite E. lia.
  - apply Byte.of_N_None_iff in E. lia.
Qed.

Lemma complement_spec b : byte_to_Z (complement b) = 0xff - byte_to_Z b.
Proof.
  unfold complement. rewrite byte_to_of_Z.
  pose proof (byte_to_Z_range b) as Hb.
  change 0xff with (Z.ones 8). rewrite Z.land_ones by lia.
  change (2 ^ 8) with 256. rewrite Z.mod_mod by lia.
  unfold Z.lnot, Z.pred, Z.ones. simpl.
  change (Z.pred (Z.shiftl 1 8)) with 255. symmetry. apply (Z.mod_unique _ _ (-1)); lia.
Qed.

Lemma length_le_bytes n v : length (le_bytes n v) = n.
Proof. revert v. induction n as [|n IH]; intros v; simpl; [done | by rewrite IH]. Qed.

Lemma le_int_le_bytes n v : le_int (le_bytes n v) = v mod 256 ^ Z.of_nat n.
Proof.
  revert v. induction n as [|n IH]; intros v.
  - simpl. by rewrite Z.mod_1_r.
  - cbn [le_bytes le_int]. rewrite IH, byte_to_of_Z, Z.shiftr_div_pow2 by lia.
    change (2 ^ 8) with 256.
    rewrite Nat2Z.inj_succ, Z.pow_succ_r by lia.
    rewrite Z.rem_mul_r by lia. reflexivity.
Qed.

Lemma le_int_le_bytes_small n v :
  0 <= v < 256 ^ Z.of_nat n → le_int (le_bytes n v) = v.
Proof. intros. rewrite le_int_le_bytes. by apply Z.mod_small. Qed.

Lemma le_int_range bs : 0 <= le_int bs < 256 ^ Z.of_nat (length bs).
Proof.
  induction bs as [|b bs IH].
  - simpl. lia.
  - cbn [le_int length]. pose proof (byte_to_Z_range b).
    rewrite Nat2Z.inj_succ, Z.pow_succ_r by lia. lia.
Qed.

Lemma le_bytes_le_int bs : le_bytes (length bs) (le_int bs) = bs.
Proof.
  induction bs as [|b bs IH]; [done|].
  cbn [length le_bytes le_int]. pose proof (byte_to_Z_range b).
  f_equal.
  - rewrite <- (byte_of_to_Z b) at 2. unfold byte_of_Z.
    replace (byte_to_Z b + 256 * le_int bs) with (byte_to_Z b + le_int bs * 256) by lia.
    rewrite Z.mod_add by lia. reflexivity.
  - rewrite Z.shiftr_div_pow2 by lia. change (2 ^ 8) with 256.
    replace (byte_to_Z b + 256 * le_int bs) with (byte_to_Z b + le_int bs * 256) by lia.
    rewrite Z.div_add by lia.
    rewrite Z.div_small by lia. exact IH.
Qed.

Lemma length_slice i j (b : list byte) :
  length (slice i j b) = ((j - i) `min` (length b - i))%nat.
Proof. unfold slice. rewrite length_take, length_drop. reflexivity. Qed.

Lemma length_overwrite off bs (b : list byte) :
  (off + length bs ≤ length b)%nat → length (overwrite off bs b) = length b.
Proof.
  intros H. unfold overwrite. rewrite !length_app, length_take, length_drop. lia.
Qed.

Lemma lookup_overwrite off bs (b : list byte) i :
  (off + length bs ≤ length b)%nat →
  overwrite off bs b !! i =
    if decide (off ≤ i < off + length bs)%nat then bs !! (i - off)%nat else b !! i.
Proof.
  intros H. unfold overwrite.
  destruct (decide (i < off)%nat) as [Hlt|Hge].
  - rewrite lookup_app_l by (rewrite length_take; lia).
    rewrite lookup_take_lt by lia. case_decide; [lia | done].
  - rewrite lookup_app_r by (rewrite length_take; lia).
    rewrite length_take, Nat.min_l by lia.
    case_decide.
    + rewrite lookup_app_l by lia. done.
    + rewrite lookup_app_r by lia. rewrite lookup_drop. f_equal. lia.
Qed.

Lemma lookup_slice i j (b : list byte) k :
  slice i j b !! k = if decide (k < j - i)%nat then b !! (i + k)%nat else None.
Proof.
  unfold slice. case_decide.
  - rewrite lookup_take_lt by lia. by rewrite lookup_drop.
  - rewrite lookup_take_ge by lia. done.
Qed.

Lemma slice_overwrite_other i j off bs (b : list byte) :
  (off + length bs ≤ length b)%nat →
  (j ≤ off ∨ off + length bs ≤ i)%nat →
  slice i j (overwrite off bs b) = slice i j b.
Proof.
  intros H Hd. apply list_eq. intros k.
  rewrite !lookup_slice. case_decide; [|done].
  rewrite lookup_overwrite by done. case_decide; [lia | done].
Qed.

Lemma slice_overwrite_same off bs (b : list byte) :
  (off + length bs ≤ length b)%nat →
  slice off (off + length bs) (overwrite off bs b) = bs.
Proof.
  intros H. apply list_eq. intros k.
  rewrite lookup_slice. case_decide.
  - rewrite lookup_overwrite by done. case_decide; [|lia]. f_equal. lia.
  - symmetry. apply lookup_ge_None. lia.
Qed.

(** ** Running a method on the object it was given *)

Lemma wp_ret {A} l (a : A) (Q : list byte → result A → Prop) b :
  Q b (Ok a) → wp l (mret a) Q b.
Proof.
  intros HQ h Hl. exists b, (Ok a). split; [|done].
  unfold mret, M_ret. by rewrite insert_id.
Qed.

Lemma wp_lift {A} l (r : result A) (Q : list byte → result A → Prop) b :
  Q b r → wp l (lift r) Q b.
Proof.
  intros HQ h Hl. exists b, r. split; [|done].
  unfold lift. by rewrite insert_id.
Qed.

Lemma wp_raise {A} l e (Q : list byte → result A → Prop) b :
  Q b (Raise e) → wp l (raise e) Q b.
Proof. apply wp_lift. Qed.

Lemma wp_bind {A B} l (m : M A) (f : A → M B) Q b :
  wp l m (λ b' r, match r with
                  | Ok a => wp l (f a) Q b'
                  | Raise e => Q b' (Raise e)
                  end) b →
  wp l (m ≫= f) Q b.
Proof.
  intros Hm h Hl. destruct (Hm h Hl) as (b1 & r1 & Hrun & Hk).
  unfold mbind, M_bind. rewrite Hrun. destruct r1 as [a|e].
  - destruct (Hk (<[l := b1]> h)) as (b2 & r2 & Hrun2 & HQ).
    { apply lookup_insert_eq. }
    exists b2, r2. split; [|done]. rewrite Hrun2. by rewrite insert_insert_eq.
  - by exists b1, (Raise e).
Qed.

Lemma wp_get_slice l i j (Q : list byte → result (list byte) → Prop) b :
  Q b (Ok (slice i j b)) → wp l (get_slice l i j) Q b.
Proof.
  intros HQ h Hl. exists b, (Ok (slice i j b)). split; [|done].
  unfold get_slice, load, mbind, M_bind. rewrite Hl. unfold mret, M_ret.
  by rewrite insert_id.
Qed.

Lemma wp_load l (Q : list byte → result (list byte) → Prop) b :
  Q b (Ok b) → wp l (load l) Q b.
Proof.
  intros HQ h Hl. exists b, (Ok b). split; [|done].
  unfold load. rewrite Hl. by rewrite insert_id.
Qed.

Lemma wp_pack_into l off bs (Q : list byte → result unit → Prop) b :
  ((off + length bs ≤ length b)%nat → Q (overwrite off bs b) (Ok tt)) →
  (¬ (off + length bs ≤ length b)%nat → Q b (Raise StructError)) →
  wp l (pack_into l off bs) Q b.
Proof.
  intros Hok Herr h Hl.
  unfold pack_into, load, mbind, M_bind. rewrite Hl.
  destruct (decide (off + length bs ≤ length b)%nat) as [Hle|Hgt].
  - exists (overwrite off bs b), (Ok tt). split; [done | auto].
  - exists b, (Raise StructError). split; [|auto].
    unfold raise. by rewrite insert_id.
Qed.

Lemma wp_assign_slice l i j xs (Q : list byte → result unit → Prop) b :
  Q (set_slice i j xs b) (Ok tt) → wp l (assign_slice l i j xs) Q b.
Proof.
  intros HQ h Hl. exists (set_slice i j xs b), (Ok tt). split; [|done].
  unfold assign_slice, load, store, mbind, M_bind. by rewrite Hl.
Qed.

Lemma wp_mono {A} l (m : M A) (Q Q' : list byte → result A → Prop) b :
  (∀ b' r, Q b' r → Q' b' r) → wp l m Q b → wp l m Q' b.
Proof.
  intros HQ Hm h Hl. destruct (Hm h Hl) as (b' & r & Hrun & Hq).
  exists b', r. auto.
Qed.

(** One step of a method body. *)
Ltac wp_step :=
  lazymatch goal with
  | |- wp _ (mbind _ _) _ _ => apply wp_bind
  | |- wp _ (get_slice _ _ _) _ _ => apply wp_get_slice
  | |- wp _ (load _) _ _ => apply wp_load
  | |- wp _ (assign_slice _ _ _ _) _ _ => apply wp_assign_slice
  | |- wp _ (lift _) _ _ => apply wp_lift
  | |- wp _ (raise _) _ _ => apply wp_raise
  | |- wp _ (mret _) _ _ => apply wp_ret
  end.

Lemma same_outside_refl P b : same_outside P b b.
Proof. by split. Qed.

Lemma same_outside_overwrite P b0 b off bs :
  same_outside P b0 b → (off + length bs ≤ length b)%nat →
  (∀ i, (off ≤ i < off + length bs)%nat → P i) →
  same_outside P b0 (overwrite off bs b).
Proof.
  intros [Hlen Hout] Hfit HP. split.
  - by rewrite length_overwrite.
  - intros i Hi. rewrite lookup_overwrite by done.
    case_decide; [by destruct Hi; apply HP | by apply Hout].
Qed.

Lemma length_set_slice i j xs (b : list byte) :
  (i ≤ j)%nat → length xs = length (slice i j b) →
  length (set_slice i j xs b) = length b.
Proof.
  intros Hij Hxs. unfold set_slice.
  rewrite !length_app, length_take, length_drop, Hxs, length_slice. lia.
Qed.

Lemma lookup_set_slice_outside i j xs (b : list byte) k :
  (i ≤ j)%nat → length xs = length (slice i j b) → ¬ (i ≤ k < j)%nat →
  set_slice i j xs b !! k = b !! k.
Proof.
  intros Hij Hxs Hk. rewrite length_slice in Hxs. unfold set_slice.
  destruct (decide (k < i)%nat) as [Hlt|Hge].
  - destruct (decide (k < length b)%nat).
    + rewrite lookup_app_l by (rewrite length_take; lia).
      by rewrite lookup_take_lt.
    + rewrite (lookup_ge_None_2 b) by lia. apply lookup_ge_None_2.
      rewrite !length_app, length_take, length_drop. lia.
  - destruct (decide (k < length b)%nat).
    + rewrite lookup_app_r by (rewrite length_take; lia).
      rewrite lookup_app_r by (rewrite length_take; lia).
      rewrite lookup_drop, length_take. f_equal. lia.
    + rewrite (lookup_ge_None_2 b) by lia. apply lookup_ge_None_2.
      rewrite !length_app, length_take, length_drop. lia.
Qed.

Lemma same_outside_set_slice P b0 b i j xs :
  same_outside P b0 b → (i ≤ j)%nat → length xs = length (slice i j b) →
  (∀ k, (i ≤ k < j)%nat → P k) →
  same_outside P b0 (set_slice i j xs b).
Proof.
  intros [Hlen Hout] Hij Hxs HP. split.
  - by rewrite length_set_slice.
  - intros k Hk. rewrite lookup_set_slice_outside; [by apply Hout|done..|].
    intros Hin. by apply Hk, HP.
Qed.

Lemma length_pack_s n bs : length (pack_s n bs) = n.
Proof.
  unfold pack_s. rewrite length_take, length_app, length_replicate. lia.
Qed.

Lemma pack_H_Ok v bs : pack_H v = Ok bs → bs = le_bytes 2 v ∧ 0 <= v <= 0xffff.
Proof.
  unfold pack_H. destruct (0 <=? v) eqn:E1, (v <=? 0xffff) eqn:E2; simpl;
    intros [=]; subst. split; [done | lia].
Qed.

Lemma slice_overwrite_eq off j bs (b : list byte) :
  (off + length bs ≤ length b)%nat → j = (off + length bs)%nat →
  slice off j (overwrite off bs b) = bs.
Proof. intros H ->. by apply slice_overwrite_same. Qed.

Ltac len := rewrite ?length_pack_s, ?length_le_bytes; first [assumption | lia].

Lemma pack_H_Raise v e : pack_H v = Raise e → ¬ (0 <= v <= 0xffff).
Proof.
  unfold pack_H. destruct (0 <=? v) eqn:E1, (v <=? 0xffff) eqn:E2; simpl;
    intros [=]; lia.
Qed.

Lemma unpack_H_le_bytes v : 0 <= v <= 0xffff → unpack_H (le_bytes 2 v) = Ok v.
Proof.
  intros Hv. unfold unpack_H. rewrite length_le_bytes. case_decide; [|done].
  f_equal. apply le_int_le_bytes_small. simpl. lia.
Qed.

Lemma pack_H_inv v bs : pack_H v = Ok bs →
  bs = le_bytes 2 v ∧ length bs = 2%nat ∧ unpack_H bs = Ok v.
Proof.
  intros H. apply pack_H_Ok in H as [-> Hv].
  split; [done|]. split; [apply length_le_bytes | by apply unpack_H_le_bytes].
Qed.

(** ** Key derivation *)

(** C4: on three 8-byte inputs [build_key] returns 16 bytes, and output byte
    [i] is [0xFF] minus the input byte that the table names for [i]; on
    all-zero inputs every output byte is [0xFF]. *)
Theorem build_key_table (key_fragment machine_id device_id : list byte) :
  length key_fragment = 8%nat → length machine_id = 8%nat →
  length device_id = 8%nat →
  (∃ key, build_key key_fragment machine_id device_id = Ok key ∧
     length key = 16%nat ∧
     ∀ i src j, key_table !! i = Some (src, j) →
       ∃ out inp, key !! i = Some out ∧
         select src key_fragment machine_id device_id !! j = Some inp ∧
         byte_to_Z out = 0xff - byte_to_Z inp) ∧
  build_key (replicate 8 x00) (replicate 8 x00) (replicate 8 x00)
    = Ok (replicate 16 xff).
Proof.
  intros Hk Hm Hd. split; [|reflexivity].
  do 9 (destruct key_fragment as [|? key_fragment]; try discriminate Hk).
  do 9 (destruct machine_id as [|? machine_id]; try discriminate Hm).
  do 9 (destruct device_id as [|? device_id]; try discriminate Hd).
  eexists. split; [reflexivity|]. split; [reflexivity|].
  intros i src j Ht.
  do 16 (destruct i as [|i];
         [injection Ht as <- <-; do 2 eexists;
          split; [reflexivity|]; split; [reflexivity|]; apply complement_spec|]).
  discriminate Ht.
Qed.

Lemma build_key_table_witness :
  ∃ key, build_key Sample.eeprom_uid Sample.machine_number Sample.eeprom_uid
           = Ok key ∧ length key = 16%nat.
Proof.
  destruct (build_key_table Sample.eeprom_uid Sample.machine_number
              Sample.eeprom_uid) as [(key & Hkey & Hlen & _) _];
    [reflexivity | reflexivity | reflexivity |].
  exists key. split; assumption.
Defined.

Lemma agree_on_check idx (a b : list byte) :
  forallb (λ i, bool_decide (a !! i = b !! i)) idx = true → agree_on idx a b.
Proof.
  intros H i Hi. rewrite forallb_forall in H.
  specialize (H i (proj1 (list_elem_of_In _ _) Hi)).
  by apply bool_decide_eq_true in H.
Qed.

(** C10: [build_key] reads bytes 0, 1, 2, 3, 6, 7 of the key fragment and of
    the machine number and bytes 1, 2, 5, 6 of the EEPROM identifier only;
    inputs that agree there give the same key, and [decode] behaves alike
    under two identifier pairs that agree there. *)
Theorem build_key_unused_bytes
    (key_fragment key_fragment' machine_number machine_number'
     eeprom_uid eeprom_uid' : list byte) :
  agree_on [0; 1; 2; 3; 6; 7]%nat key_fragment key_fragment' →
  agree_on [0; 1; 2; 3; 6; 7]%nat machine_number machine_number' →
  agree_on [1; 2; 5; 6]%nat eeprom_uid eeprom_uid' →
  build_key key_fragment machine_number eeprom_uid
    = build_key key_fragment' machine_number' eeprom_uid' ∧
  ∀ checksum crypto_decrypt Timestamp (FromDatetime : datetime → Timestamp)
    name_from_id cartridge_crypted (h : heap),
    decode checksum crypto_decrypt Timestamp FromDatetime name_from_id
           machine_number eeprom_uid cartridge_crypted h
    = decode checksum crypto_decrypt Timestamp FromDatetime name_from_id
             machine_number' eeprom_uid' cartridge_crypted h.
Proof.
  intros Hk Hm Hd.
  assert (Hkey : ∀ kf kf', agree_on [0; 1; 2; 3; 6; 7]%nat kf kf' →
            build_key kf machine_number eeprom_uid
            = build_key kf' machine_number' eeprom_uid').
  { intros kf kf' Hkf. unfold build_key, index.
    rewrite !(Hkf 0%nat), !(Hkf 1%nat), !(Hkf 2%nat), !(Hkf 3%nat),
            !(Hkf 6%nat), !(Hkf 7%nat) by set_solver.
    rewrite !(Hm 0%nat), !(Hm 1%nat), !(Hm 2%nat), !(Hm 3%nat),
            !(Hm 6%nat), !(Hm 7%nat) by set_solver.
    rewrite !(Hd 1%nat), !(Hd 2%nat), !(Hd 5%nat), !(Hd 6%nat) by set_solver.
    reflexivity. }
  split; [by apply Hkey|].
  intros. unfold decode, decrypt, get_slice, load, mbind, M_bind.
  destruct (h !! cartridge_crypted) as [b|]; [|reflexivity].
  unfold mret at 1, M_ret at 1.
  unfold mret at 9, M_ret at 9.
  rewrite (Hkey (slice 72 80 b) (slice 72 80 b)) by (intros ? ?; reflexivity).
  reflexivity.
Qed.

Lemma build_key_unused_bytes_witness :
  build_key [x00; x01; x02; x03; x04; x05; x06; x07] Sample.machine_number
            Sample.eeprom_uid
  = build_key [x00; x01; x02; x03; xff; xff; x06; x07]
              [x01; x02; x03; x04; xaa; xbb; x07; x08]
              [xcc; x12; x13; xdd; xee; x16; x17; xff].
Proof.
  apply build_key_unused_bytes; apply agree_on_check; reflexivity.
Defined.

(** ** The regions [encrypt] and [decrypt] touch *)

Ltac wp_steps := repeat (wp_step; cbv beta iota).

(** Case analysis on the result that the goal scrutinises. *)
Ltac case_result x H :=
  lazymatch goal with
  | |- match ?r with Ok _ => _ | Raise _ => _ end =>
    let e := fresh "e" in destruct r as [x|e] eqn:H
  end.

(** A write of [pack_into] that stays inside the region [P]. *)
Ltac frame_pack_into Hs :=
  apply wp_pack_into;
  [ let Hfit := fresh "Hfit" in
    intros Hfit;
    eapply same_outside_overwrite in Hs;
    [ | exact Hfit
      | let i := fresh "i" in
        intros i; rewrite ?length_pack_s, ?length_le_bytes;
        unfold transformed; lia ]
  | intros _; by split ].

Ltac frame_pack_H :=
  lazymatch goal with
  | |- match pack_H ?v with _ => _ end =>
    let E := fresh "E" in
    destruct (pack_H v) as [?|?] eqn:E;
    [ apply pack_H_Ok in E as [-> _] | by split ]
  end.

Ltac lens :=
  unfold pack_d; rewrite ?length_pack_s, ?length_le_bytes, ?length_replicate;
  first [assumption | lia].

(** A write of [pack] into its 113-byte buffer: it always fits. *)
Ltac wp_write :=
  apply wp_pack_into;
  [ let Hfit := fresh "Hfit" in
    intros Hfit;
    lazymatch goal with
    | |- context [overwrite ?off ?bs ?b] =>
      let b' := fresh "b" in
      let Hl := fresh "Hl" in
      set (b' := overwrite off bs b) in *;
      assert (Hl : length b' = length b) by (apply length_overwrite; exact Hfit)
    end
  | let Hn := fresh "Hn" in
    intros Hn; exfalso; apply Hn; lens ].

(** [slice i j b] for [b] a chain of writes: the write at [i], found under
    the later ones, which lie elsewhere. *)
Ltac slice_chain :=
  repeat first
    [ reflexivity
    | apply slice_overwrite_eq; lens
    | etrans; [apply slice_overwrite_other; lens|] ].

Section Regions.
Variable checksum : list byte → Z.
Variable crypto_encrypt crypto_decrypt : list byte → list byte → list byte.
Hypothesis decrypt_length :
  ∀ key bs, length (crypto_decrypt key bs) = length bs.

Lemma encrypt_confined machine_number eeprom_uid l b :
  wp l (encrypt checksum crypto_encrypt machine_number eeprom_uid l)
     (λ b' r, same_outside transformed b b' ∧ ∀ l', r = Ok l' → l' = l) b.
Proof.
  pose proof (same_outside_refl transformed b) as Hs.
  unfold encrypt. wp_steps.
  destruct (build_key _ _ _) as [key|e]; [|by split].
  wp_steps. frame_pack_into Hs.
  wp_steps. frame_pack_H. wp_steps. frame_pack_into Hs.
  wp_steps. frame_pack_into Hs.
  wp_steps. frame_pack_H. wp_steps. frame_pack_into Hs.
  wp_steps. split; [done | by intros ? [= <-]].
Qed.

Lemma decrypt_confined machine_number eeprom_uid l b :
  wp l (decrypt checksum crypto_decrypt machine_number eeprom_uid l)
     (λ b' r, same_outside (λ i, i < 0x40 ∨ 0x58 ≤ i < 0x60)%nat b b'
              ∧ ∀ l', r = Ok l' → l' = l) b.
Proof.
  pose proof (same_outside_refl (λ i, i < 0x40 ∨ 0x58 ≤ i < 0x60)%nat b) as Hs.
  unfold decrypt. wp_steps.
  destruct (build_key _ _ _) as [key|e]; [|by split].
  wp_steps. destruct (unpack_H _) as [stored|e]; [|by split].
  wp_steps. destruct (_ =? _); wp_steps; [|by split].
  apply (same_outside_set_slice _ _ _ 0x00 0x40 (crypto_decrypt key (slice 0x00 0x40 b))) in Hs;
    [ | lia | apply decrypt_length | intros k Hk; left; exact (proj2 Hk) ].
  destruct (unpack_H _) as [stored'|e]; [|by split].
  wp_steps. destruct (_ =? _); wp_steps; [|by split].
  split; [|by intros ? [= <-]].
  apply same_outside_set_slice;
    [ exact Hs | lia | apply decrypt_length | intros k Hk; right; exact Hk ].
Qed.

Lemma encrypt_run machine_number eeprom_uid l b :
  wp l (encrypt checksum crypto_encrypt machine_number eeprom_uid l)
     (λ b' r,
        match r with
        | Ok l' =>
          l' = l ∧ (0x62 ≤ length b)%nat ∧
          ∃ key, build_key (slice 0x48 0x50 b) machine_number eeprom_uid = Ok key ∧
            b' = encrypted checksum crypto_encrypt key b ∧
            0 <= checksum (slice 0x00 0x40 b') <= 0xffff ∧
            0 <= checksum (slice 0x58 0x60 b') <= 0xffff ∧
            slice 0x00 0x40 b' = pack_s 64 (crypto_encrypt key (slice 0x00 0x40 b)) ∧
            slice 0x46 0x48 b' = le_bytes 2 (checksum (slice 0x00 0x40 b')) ∧
            slice 0x58 0x60 b' = pack_s 8 (crypto_encrypt key (slice 0x58 0x60 b)) ∧
            slice 0x60 0x62 b' = le_bytes 2 (checksum (slice 0x58 0x60 b')) ∧
            same_outside transformed b b'
        | Raise e =>
          (0x62 ≤ length b)%nat → (∀ bs, 0 <= checksum bs <= 0xffff) →
          build_key (slice 0x48 0x50 b) machine_number eeprom_uid = Raise e
        end) b.
Proof.
  unfold encrypt. wp_steps.
  destruct (build_key _ _ _) as [key|e] eqn:Hkey; [|done].
  wp_steps. apply wp_pack_into; [intros Hfit1|].
  2: { intros Hn Hlen _. exfalso. apply Hn. len. }
  set (b1 := overwrite 0 _ b) in *.
  pose proof (length_overwrite _ _ _ Hfit1) as Hl1. fold b1 in Hl1.
  wp_steps. case_result crc Hcrc.
  2: { intros _ Hrange. apply pack_H_Raise in Hcrc.
       specialize (Hrange (slice 0 64 b1)). lia. }
  apply pack_H_Ok in Hcrc as [-> Hcrc].
  wp_steps. apply wp_pack_into; [intros Hfit2|].
  2: { intros Hn Hlen _. exfalso. apply Hn. len. }
  set (b2 := overwrite 70 _ b1) in *.
  pose proof (length_overwrite _ _ _ Hfit2) as Hl2. fold b2 in Hl2.
  wp_steps. apply wp_pack_into; [intros Hfit3|].
  2: { intros Hn Hlen _. exfalso. apply Hn. len. }
  set (b3 := overwrite 88 _ b2) in *.
  pose proof (length_overwrite _ _ _ Hfit3) as Hl3. fold b3 in Hl3.
  wp_steps. case_result crc' Hcrc'.
  2: { intros _ Hrange. apply pack_H_Raise in Hcrc'.
       specialize (Hrange (slice 88 96 b3)). lia. }
  apply pack_H_Ok in Hcrc' as [-> Hcrc'].
  wp_steps. apply wp_pack_into; [intros Hfit4|].
  2: { intros Hn Hlen _. exfalso. apply Hn. len. }
  set (b4 := overwrite 96 _ b3) in *.
  pose proof (length_overwrite _ _ _ Hfit4) as Hl4. fold b4 in Hl4.
  wp_steps.
  rewrite ?length_pack_s, ?length_le_bytes in *.
  assert (H04 : slice 0 64 b4 = slice 0 64 b1) by slice_chain.
  assert (Hq4 : slice 88 96 b4 = slice 88 96 b3) by slice_chain.
  assert (Hq2 : slice 88 96 b2 = slice 88 96 b) by slice_chain.
  split; [done|]. split; [lia|]. exists key.
  split; [done|]. split; [done|].
  rewrite H04, Hq4.
  split; [done|]. split; [done|].
  split; [slice_chain|]. split; [slice_chain|].
  split; [rewrite <- Hq2; slice_chain|]. split; [slice_chain|].
  unfold b4, b3, b2, b1.
  repeat (apply same_outside_overwrite;
          [ | lens | intros i; rewrite ?length_pack_s, ?length_le_bytes;
                     unfold transformed; lia ]).
  apply same_outside_refl.
Qed.

Lemma decrypt_run machine_number eeprom_uid l b :
  wp l (decrypt checksum crypto_decrypt machine_number eeprom_uid l)
     (λ b' r,
        match build_key (slice 0x48 0x50 b) machine_number eeprom_uid with
        | Raise e => b' = b ∧ r = Raise e
        | Ok key =>
          match unpack_H (slice 0x46 0x48 b) with
          | Raise e => b' = b ∧ r = Raise e
          | Ok stored =>
            if checksum (slice 0x00 0x40 b) =? stored then
              let b1 := set_slice 0x00 0x40
                          (crypto_decrypt key (slice 0x00 0x40 b)) b in
              match unpack_H (slice 0x60 0x62 b1) with
              | Raise e => b' = b1 ∧ r = Raise e
              | Ok stored' =>
                if checksum (slice 0x58 0x60 b1) =? stored' then
                  b' = decrypted crypto_decrypt key b ∧ r = Ok l
                else b' = b1 ∧ r = Raise InvalidQuantityChecksum
              end
            else b' = b ∧ r = Raise InvalidCryptedContentChecksum
          end
        end) b.
Proof.
  unfold decrypt. wp_steps.
  destruct (build_key _ _ _) as [key|e] eqn:Hkey; [|done].
  wp_steps. destruct (unpack_H (slice 70 72 b)) as [stored|e]; [|done].
  wp_steps. destruct (checksum _ =? stored); wp_steps; [|done].
  destruct (unpack_H _) as [stored'|e]; [|done].
  wp_steps. by destruct (checksum _ =? stored'); wp_steps.
Qed.

End Regions.

Lemma same_outside_mono (P P' : nat → Prop) b b' :
  (∀ i, P i → P' i) → same_outside P b b' → same_outside P' b b'.
Proof. intros HP [Hlen Hout]. split; [done|]. intros i Hi. apply Hout. auto. Qed.

Lemma slice_same_outside (P : nat → Prop) i j b b' :
  same_outside P b b' → (∀ k, (i ≤ k < j)%nat → ¬ P k) →
  slice i j b' = slice i j b.
Proof.
  intros [_ Hout] HP. apply list_eq. intros k. rewrite !lookup_slice.
  case_decide; [|done]. apply Hout, HP. lia.
Qed.

Lemma wp_run {A} l (m : M A) (Q : list byte → result A → Prop) b (h : heap) :
  wp l m Q b → h !! l = Some b →
  ∃ b', (m h).1 = <[l := b']> h ∧ Q b' (m h).2.
Proof.
  intros Hwp Hl. destruct (Hwp h Hl) as (b' & r & Hrun & HQ).
  exists b'. by rewrite Hrun.
Qed.

(** [bytearray(n)] followed by a body that works on the new object. *)
Lemma wp_new_bytearray {A} n (f : loc → M A)
    (Q : loc → list byte → result A → Prop) :
  (∀ l, wp l (f l) (Q l) (replicate n x00)) →
  ∀ h : heap, ∃ b' r,
    (new_bytearray n ≫= f) h = (<[fresh (dom h) := b']> h, r) ∧
    Q (fresh (dom h)) b' r.
Proof.
  intros Hf h. unfold mbind, M_bind, new_bytearray.
  destruct (Hf (fresh (dom h)) (<[fresh (dom h) := replicate n x00]> h))
    as (b' & r & Hrun & HQ); [apply lookup_insert_eq|].
  exists b', r. split; [|done].
  etrans; [exact Hrun|]. by rewrite insert_insert_eq.
Qed.

(** A body whose writes all go through the one reference. *)
Ltac wp_any :=
  repeat first
    [ wp_step; cbv beta iota
    | apply wp_pack_into; intros _
    | lazymatch goal with
      | |- match ?r with Ok _ => _ | Raise _ => _ end => destruct r
      | |- wp _ (if ?c then _ else _) _ _ => destruct c
      end
    | exact I ].

Lemma xor_cipher_length key bs :
  length (Sample.xor_cipher key bs) = length bs.
Proof. unfold Sample.xor_cipher. destruct key; [done | apply length_map]. Qed.

(** C9: [encrypt] and [decrypt] leave every byte outside the header region,
    the token slots and the quantity region as it was (the cipher returning
    as many bytes as it is given); the key fragment at 0x48, its checksum at
    0x50 and the signature at 0x68 hold the same bytes before and after. *)
Theorem key_fragment_never_encrypted
    (checksum : list byte → Z)
    (crypto_encrypt crypto_decrypt : list byte → list byte → list byte)
    (machine_number eeprom_uid : list byte) (l : loc) (h : heap)
    (b : list byte) (method : M loc) :
  (∀ key bs, length (crypto_decrypt key bs) = length bs) →
  h !! l = Some b →
  method = encrypt checksum crypto_encrypt machine_number eeprom_uid l ∨
  method = decrypt checksum crypto_decrypt machine_number eeprom_uid l →
  ∃ b', (method h).1 !! l = Some b' ∧
    same_outside transformed b b' ∧
    slice 0x48 0x50 b' = slice 0x48 0x50 b ∧
    slice 0x50 0x52 b' = slice 0x50 0x52 b ∧
    slice 0x68 0x71 b' = slice 0x68 0x71 b.
Proof.
  intros Hlen Hl Hm.
  assert (∃ b', (method h).1 = <[l := b']> h ∧ same_outside transformed b b')
    as (b' & Hrun & Hsame).
  { destruct Hm as [-> | ->].
    - destruct (wp_run _ _ _ _ h (encrypt_confined checksum crypto_encrypt
                  machine_number eeprom_uid l b) Hl) as (b' & Hrun & Hs & _).
      by exists b'.
    - destruct (wp_run _ _ _ _ h (decrypt_confined checksum crypto_decrypt
                  Hlen machine_number eeprom_uid l b) Hl) as (b' & Hrun & Hs & _).
      exists b'. split; [done|].
      eapply same_outside_mono; [|exact Hs]. unfold transformed. simpl. lia. }
  exists b'. rewrite Hrun, lookup_insert_eq. split; [done|]. split; [done|].
  repeat split; eapply slice_same_outside; try exact Hsame;
    intros k Hk; unfold transformed; lia.
Qed.

Lemma key_fragment_never_encrypted_witness :
  ∃ b', (Sample.sample_decrypt 1%positive {[1%positive := Sample.crypted]}).1
          !! 1%positive = Some b' ∧
        slice 0x48 0x50 b' = slice 0x48 0x50 Sample.crypted.
Proof.
  destruct (key_fragment_never_encrypted Sample.sum16 Sample.xor_cipher
              Sample.xor_cipher Sample.machine_number Sample.eeprom_uid
              1%positive {[1%positive := Sample.crypted]} Sample.crypted
              (Sample.sample_decrypt 1%positive))
    as (b' & Hb' & _ & Hkey & _);
    [ apply xor_cipher_length | vm_compute; reflexivity
    | right; reflexivity | ].
  exists b'. split; assumption.
Defined.

(** ** The tokens written by [encrypt] *)

(** C3, as stated, fails: on the packed sample cartridge the values that
    [encrypt] stores at 0x46 and 0x60 are not the checksums of the plaintext
    header and quantity bytes. *)
Lemma encrypt_tokens_not_over_plaintext :
  Sample.sample_encrypt 1%positive {[1%positive := Sample.packed]}
    = ({[1%positive := Sample.crypted]}, Ok 1%positive) ∧
  unpack_H (slice 0x46 0x48 Sample.crypted)
    ≠ Ok (Sample.sum16 (slice 0x00 0x40 Sample.packed)) ∧
  unpack_H (slice 0x60 0x62 Sample.crypted)
    ≠ Ok (Sample.sum16 (slice 0x58 0x60 Sample.packed)).
Proof.
  split; [vm_compute; reflexivity|].
  split; vm_compute; intros [=].
Qed.

(** C3, amended: when [encrypt] succeeds, the header and quantity regions of
    the buffer hold the cipher's output (cut or padded to the region), and
    the values stored at 0x46 and 0x60 are the checksums of those regions as
    they then stand, that is, of the ciphertext. *)
Theorem encrypt_tokens_cover_ciphertext
    (checksum : list byte → Z)
    (crypto_encrypt : list byte → list byte → list byte)
    (machine_number eeprom_uid : list byte) (l l' : loc) (h h' : heap)
    (b : list byte) :
  h !! l = Some b →
  encrypt checksum crypto_encrypt machine_number eeprom_uid l h = (h', Ok l') →
  l' = l ∧
  ∃ key b',
    build_key (slice 0x48 0x50 b) machine_number eeprom_uid = Ok key ∧
    h' = <[l := b']> h ∧
    slice 0x00 0x40 b' = pack_s 64 (crypto_encrypt key (slice 0x00 0x40 b)) ∧
    unpack_H (slice 0x46 0x48 b') = Ok (checksum (slice 0x00 0x40 b')) ∧
    slice 0x58 0x60 b' = pack_s 8 (crypto_encrypt key (slice 0x58 0x60 b)) ∧
    unpack_H (slice 0x60 0x62 b') = Ok (checksum (slice 0x58 0x60 b')).
Proof.
  intros Hl Hrun.
  destruct (encrypt_run checksum crypto_encrypt machine_number eeprom_uid
              l b h Hl) as (b' & r & Hrun' & HQ).
  rewrite Hrun in Hrun'. injection Hrun' as -> <-.
  destruct HQ
    as (-> & _ & key & Hkey & Hb' & Hc1 & Hc2 & Hhdr & Htok & Hq & Hqtok & _).
  split; [done|]. exists key, b'.
  rewrite Htok, Hqtok.
  rewrite !unpack_H_le_bytes by done. by repeat split.
Qed.

Lemma encrypt_tokens_cover_ciphertext_witness :
  ∃ b', unpack_H (slice 0x46 0x48 b') = Ok (Sample.sum16 (slice 0x00 0x40 b')) ∧
        ({[1%positive := Sample.crypted]} : heap)
          = <[1%positive := b']> {[1%positive := Sample.packed]}.
Proof.
  destruct (encrypt_tokens_cover_ciphertext Sample.sum16 Sample.xor_cipher
              Sample.machine_number Sample.eeprom_uid 1%positive 1%positive
              {[1%positive := Sample.packed]} {[1%positive := Sample.crypted]}
              Sample.packed)
    as (_ & key & b' & _ & Hh' & _ & Htok & _);
    [ vm_compute; reflexivity | vm_compute; reflexivity | ].
  exists b'. split; assumption.
Defined.

(** ** What the methods do to the objects they are given *)

(** C8, as stated, fails: [encrypt] overwrites the buffer it is given, and
    [decode] leaves the caller's image holding decrypted bytes. *)
Lemma encrypt_decode_change_their_argument :
  (Sample.sample_encrypt 1%positive {[1%positive := Sample.packed]}).1
     !! 1%positive = Some Sample.crypted ∧
  Sample.crypted ≠ Sample.packed ∧
  (Sample.sample_decode 1%positive {[1%positive := Sample.crypted]}).1
     !! 1%positive ≠ Some Sample.crypted.
Proof.
  split; [vm_compute; reflexivity|].
  split; [vm_compute; intros [=] | vm_compute; intros [=]].
Qed.

Lemma pack_allocates (checksum : list byte → Z) (Timestamp : Type)
    (ToDatetime : Timestamp → datetime) (id_from_name : string → option Z)
    (cartridge : Cartridge Timestamp) (h : heap) :
  ∃ b' r, pack checksum Timestamp ToDatetime id_from_name cartridge h
            = (<[fresh (dom h) := b']> h, r).
Proof.
  unfold pack.
  edestruct (wp_new_bytearray (A := loc) 0x71) with (Q := λ (_ : loc)
    (_ : list byte) (_ : result loc), True) (h := h) as (b' & r & Hrun & _);
    [|exists b', r; exact Hrun].
  intros eeprom. cbv beta. wp_any.
Qed.

Lemma unpack_reads_only (checksum : list byte → Z) (Timestamp : Type)
    (FromDatetime : datetime → Timestamp) (name_from_id : Z → option string)
    (l : loc) (h : heap) :
  (unpack checksum Timestamp FromDatetime name_from_id l h).1 = h.
Proof.
  unfold unpack, load, lift, mbind, M_bind. by destruct (h !! l).
Qed.

(** When [decrypt] returns, both checks have passed. *)
Lemma decrypt_run_Ok (checksum : list byte → Z)
    (crypto_decrypt : list byte → list byte → list byte)
    (machine_number eeprom_uid : list byte) (l l' : loc) (b b' : list byte) :
  match build_key (slice 0x48 0x50 b) machine_number eeprom_uid with
  | Raise e => b' = b ∧ Ok l' = Raise e
  | Ok key =>
    match unpack_H (slice 0x46 0x48 b) with
    | Raise e => b' = b ∧ Ok l' = Raise e
    | Ok stored =>
      if checksum (slice 0x00 0x40 b) =? stored then
        let b1 := set_slice 0x00 0x40
                    (crypto_decrypt key (slice 0x00 0x40 b)) b in
        match unpack_H (slice 0x60 0x62 b1) with
        | Raise e => b' = b1 ∧ Ok l' = Raise e
        | Ok stored' =>
          if checksum (slice 0x58 0x60 b1) =? stored' then
            b' = decrypted crypto_decrypt key b ∧ Ok l' = Ok l
          else b' = b1 ∧ Ok l' = Raise InvalidQuantityChecksum
        end
      else b' = b ∧ Ok l' = Raise InvalidCryptedContentChecksum
    end
  end →
  l = l' ∧
  ∃ key, build_key (slice 0x48 0x50 b) machine_number eeprom_uid = Ok key ∧
    b' = decrypted crypto_decrypt key b ∧
    unpack_H (slice 0x46 0x48 b) = Ok (checksum (slice 0x00 0x40 b)) ∧
    let b1 := set_slice 0x00 0x40 (crypto_decrypt key (slice 0x00 0x40 b)) b in
    unpack_H (slice 0x60 0x62 b1) = Ok (checksum (slice 0x58 0x60 b1)).
Proof.
  destruct (build_key _ _ _) as [key|e]; [|intros [_ [=]]].
  destruct (unpack_H (slice 70 72 b)) as [stored|e]; [|intros [_ [=]]].
  destruct (checksum _ =? stored) eqn:Hg; [|intros [_ [=]]].
  cbv zeta.
  lazymatch goal with
  | |- match ?r with Ok _ => _ | Raise _ => _ end → _ =>
    destruct r as [stored'|e] eqn:Hs'; [|intros [_ [=]]]
  end.
  destruct (checksum _ =? stored') eqn:Hg'; [|intros [_ [=]]].
  intros [-> [= <-]]. apply Z.eqb_eq in Hg, Hg'. subst stored stored'.
  split; [done|]. exists key. rewrite ?Hs'. done.
Qed.

(** C8, amended: [pack] creates one new buffer and leaves the existing ones
    alone, [unpack] changes nothing, and [encrypt] and [decrypt] work in
    place: they change no object but the buffer they are given, return that
    very buffer and, when they succeed, leave in it the transformed bytes;
    [decode] leaves the store as [decrypt] made it. *)
Theorem methods_work_in_place
    (checksum : list byte → Z)
    (crypto_encrypt crypto_decrypt : list byte → list byte → list byte)
    (Timestamp : Type) (ToDatetime : Timestamp → datetime)
    (FromDatetime : datetime → Timestamp)
    (id_from_name : string → option Z) (name_from_id : Z → option string)
    (machine_number eeprom_uid : list byte) (cartridge : Cartridge Timestamp)
    (l : loc) (h : heap) (b : list byte) :
  h !! l = Some b →
  (∃ b', (pack checksum Timestamp ToDatetime id_from_name cartridge h).1
           = <[fresh (dom h) := b']> h) ∧
  (unpack checksum Timestamp FromDatetime name_from_id l h).1 = h ∧
  (∃ b', (encrypt checksum crypto_encrypt machine_number eeprom_uid l h).1
           = <[l := b']> h ∧
     ∀ l', (encrypt checksum crypto_encrypt machine_number eeprom_uid l h).2
             = Ok l' →
       l' = l ∧ ∃ key, b' = encrypted checksum crypto_encrypt key b) ∧
  (∃ b', (decrypt checksum crypto_decrypt machine_number eeprom_uid l h).1
           = <[l := b']> h ∧
     ∀ l', (decrypt checksum crypto_decrypt machine_number eeprom_uid l h).2
             = Ok l' →
       l' = l ∧ ∃ key, b' = decrypted crypto_decrypt key b) ∧
  (decode checksum crypto_decrypt Timestamp FromDatetime name_from_id
          machine_number eeprom_uid l h).1
    = (decrypt checksum crypto_decrypt machine_number eeprom_uid l h).1.
Proof.
  intros Hl. split; [|split; [|split; [|split]]].
  - destruct (pack_allocates checksum Timestamp ToDatetime id_from_name
                cartridge h) as (b' & r & Hrun).
    exists b'. by rewrite Hrun.
  - apply unpack_reads_only.
  - destruct (wp_run _ _ _ _ h (encrypt_run checksum crypto_encrypt
                machine_number eeprom_uid l b) Hl) as (b' & Hrun & HQ).
    exists b'. split; [done|]. intros l' Hr. rewrite Hr in HQ.
    destruct HQ as (-> & _ & key & _ & -> & _). eauto.
  - destruct (wp_run _ _ _ _ h (decrypt_run checksum crypto_decrypt
                machine_number eeprom_uid l b) Hl) as (b' & Hrun & HQ).
    exists b'. split; [done|]. intros l' Hr. rewrite Hr in HQ.
    by apply decrypt_run_Ok in HQ as (<- & key & _ & -> & _); eauto.
  - unfold decode, mbind, M_bind.
    destruct (decrypt _ _ _ _ _ h) as [h1 [p|e]]; [|done].
    pose proof (unpack_reads_only checksum Timestamp FromDatetime
                  name_from_id p h1) as Hu.
    destruct (unpack _ _ _ _ p h1) as [h2 [c|e]]; simpl in *; by subst.
Qed.

Lemma methods_work_in_place_witness :
  (Sample.sample_unpack 1%positive {[1%positive := Sample.packed]}).1
    = {[1%positive := Sample.packed]}.
Proof.
  refine (proj1 (proj2 (methods_work_in_place Sample.sum16 Sample.xor_cipher
            Sample.xor_cipher datetime id id Sample.materials
            Sample.material_names Sample.machine_number Sample.eeprom_uid
            Sample.cartridge 1%positive {[1%positive := Sample.packed]}
            Sample.packed _))).
  vm_compute; reflexivity.
Defined.

(** ** [pack] *)

Lemma pack_B_Ok v bs : pack_B v = Ok bs → bs = le_bytes 1 v ∧ 0 <= v <= 0xff.
Proof.
  unfold pack_B. destruct (0 <=? v) eqn:E1, (v <=? 0xff) eqn:E2; simpl;
    intros [=]; subst. split; [done | lia].
Qed.

Lemma pack_datetime_Ok dt bs :
  pack_datetime dt = Ok bs →
  bs = le_bytes 2 (year dt - 1900) ++ le_bytes 1 (month dt) ++
       le_bytes 1 (day dt) ++ le_bytes 1 (hour dt) ++ le_bytes 1 (minute dt) ++
       le_bytes 2 (second dt) ∧
  0 <= year dt - 1900 <= 0xffff ∧ 0 <= month dt <= 0xff ∧
  0 <= day dt <= 0xff ∧ 0 <= hour dt <= 0xff ∧ 0 <= minute dt <= 0xff ∧
  0 <= second dt <= 0xffff.
Proof.
  unfold pack_datetime, mbind, result_mbind, result_bind.
  destruct (pack_H (year dt - 1900)) as [y|] eqn:Hy; [|done].
  destruct (pack_B (month dt)) as [mo|] eqn:Hmo; [|done].
  destruct (pack_B (day dt)) as [d|] eqn:Hd; [|done].
  destruct (pack_B (hour dt)) as [hh|] eqn:Hhh; [|done].
  destruct (pack_B (minute dt)) as [mi|] eqn:Hmi; [|done].
  destruct (pack_H (second dt)) as [ss|] eqn:Hss; [|done].
  apply pack_H_Ok in Hy as [-> ?], Hss as [-> ?].
  apply pack_B_Ok in Hmo as [-> ?], Hd as [-> ?], Hhh as [-> ?], Hmi as [-> ?].
  intros [= <-]. done.
Qed.

Lemma pack_datetime_length dt bs : pack_datetime dt = Ok bs → length bs = 8%nat.
Proof. intros H. apply pack_datetime_Ok in H as [-> _]. reflexivity. Qed.

Section Pack.
Variable checksum : list byte → Z.
Variable Timestamp : Type.
Variable ToDatetime : Timestamp → datetime.
Variable id_from_name : string → option Z.

Lemma pack_body_run (c : Cartridge Timestamp) :
  ∀ h : heap, ∃ b' r,
    pack checksum Timestamp ToDatetime id_from_name c h
      = (<[fresh (dom h) := b']> h, r) ∧
    match r with
    | Ok l => l = fresh (dom h) ∧ ∃ idf mfg lu key,
                packable ToDatetime id_from_name c idf mfg lu key ∧ layout checksum c idf mfg lu key b'
    | Raise e => (∀ bs, 0 <= checksum bs <= 0xffff) →
                 ∀ idf mfg lu key, ¬ packable ToDatetime id_from_name c idf mfg lu key
    end.
Proof.
  intros h. unfold pack.
  apply (wp_new_bytearray (A := loc) 0x71 _
    (λ (l : loc) (b' : list byte) (r : result loc),
       match r with
       | Ok l' => l' = l ∧ ∃ idf mfg lu key,
                   packable ToDatetime id_from_name c idf mfg lu key ∧ layout checksum c idf mfg lu key b'
       | Raise e => (∀ bs, 0 <= checksum bs <= 0xffff) →
                    ∀ idf mfg lu key, ¬ packable ToDatetime id_from_name c idf mfg lu key
       end)).
  intros eeprom. cbv beta.
  set (b0 := replicate 113 x00).
  assert (Hl0 : length b0 = 113%nat) by apply length_replicate.
  wp_steps. wp_write. wp_steps.
  case_result mid Hid;
    [| intros _ ? ? ? ? ([id' [Hid' _]] & _); congruence ].
  wp_steps.
  case_result idf Hidf;
    [| intros _ ? ? ? ? ([id' [Hid' Hf]] & _); congruence ].
  wp_steps. wp_write. wp_steps. wp_write. wp_steps.
  case_result v Hv.
  2: { intros _ ? ? ? ? (_ & Hver & _). unfold pack_H in Hv.
       destruct (0 <=? version c) eqn:?, (version c <=? 0xffff) eqn:?;
         simpl in Hv; try discriminate; lia. }
  apply pack_H_Ok in Hv as [-> Hver].
  wp_steps. wp_write. wp_steps.
  case_result mfg Hmfg; [| intros _ ? ? ? ? (_ & _ & ? & _); congruence ].
  pose proof (pack_datetime_length _ _ Hmfg) as Hmfg_len.
  wp_steps. wp_write. wp_steps.
  case_result lu Hlu; [| intros _ ? ? ? ? (_ & _ & _ & ? & _); congruence ].
  pose proof (pack_datetime_length _ _ Hlu) as Hlu_len.
  wp_steps. wp_write. wp_steps. wp_write. wp_steps.
  case_result crc Hcrc.
  2: { intros Hrange _ _ _ _ _. unfold pack_H in Hcrc.
       match type of Hcrc with context [checksum ?x] =>
         specialize (Hrange x) end.
       destruct (0 <=? _) eqn:?, (_ <=? 0xffff) eqn:? in Hcrc;
         simpl in Hcrc; try discriminate; lia. }
  apply pack_H_Ok in Hcrc as [-> Hcrc].
  wp_steps. wp_write. wp_steps.
  case_result key Hkey; [| intros _ ? ? ? ? (_ & _ & _ & _ & ?); congruence ].
  wp_steps. wp_write. wp_steps.
  case_result kcrc Hkcrc.
  2: { intros Hrange _ _ _ _ _. unfold pack_H in Hkcrc.
       match type of Hkcrc with context [checksum ?x] =>
         specialize (Hrange x) end.
       destruct (0 <=? _) eqn:?, (_ <=? 0xffff) eqn:? in Hkcrc;
         simpl in Hkcrc; try discriminate; lia. }
  apply pack_H_Ok in Hkcrc as [-> Hkcrc].
  wp_steps. wp_write. wp_steps. wp_write. wp_steps.
  case_result qcrc Hqcrc.
  2: { intros Hrange _ _ _ _ _. unfold pack_H in Hqcrc.
       match type of Hqcrc with context [checksum ?x] =>
         specialize (Hrange x) end.
       destruct (0 <=? _) eqn:?, (_ <=? 0xffff) eqn:? in Hqcrc;
         simpl in Hqcrc; try discriminate; lia. }
  apply pack_H_Ok in Hqcrc as [-> Hqcrc].
  wp_steps. wp_write. wp_steps. wp_write. wp_steps.
  split; [done|]. exists idf, mfg, lu, key. split.
  { split; [by exists mid|]. done. }
  assert (Hh : slice 0 64 b12 = slice 0 64 b6) by slice_chain.
  assert (Hk : slice 72 80 b12 = slice 72 80 b8) by slice_chain.
  assert (Hq : slice 88 96 b12 = slice 88 96 b10) by slice_chain.
  unfold layout. rewrite Hh, Hk, Hq.
  repeat split; first [lia | slice_chain].
Qed.
End Pack.

(** ** Unknown materials *)

Lemma unpack_from_fits n off (b : list byte) :
  (off + n ≤ length b)%nat → unpack_from n off b = Ok (slice off (off + n) b).
Proof. intros H. unfold unpack_from. by case_decide. Qed.

Lemma unpack_H_slice i (b : list byte) :
  (i + 2 ≤ length b)%nat →
  unpack_H (slice i (i + 2) b) = Ok (le_int (slice i (i + 2) b)).
Proof.
  intros H. unfold unpack_H. rewrite length_slice. case_decide; [done | lia].
Qed.

(** C7: a record whose material name the table does not know makes [pack],
    and so [encode], raise [UnknownMaterialError], no image being returned;
    and [unpack] raises it on checksum-valid bytes whose material identifier
    the table does not know. *)
Theorem unknown_material_is_refused
    (checksum : list byte → Z)
    (crypto_encrypt : list byte → list byte → list byte)
    (Timestamp : Type) (ToDatetime : Timestamp → datetime)
    (FromDatetime : datetime → Timestamp)
    (id_from_name : string → option Z) (name_from_id : Z → option string) :
  (∀ (cartridge : Cartridge Timestamp) machine_number eeprom_uid (h : heap),
     id_from_name (material_name cartridge) = None →
     (pack checksum Timestamp ToDatetime id_from_name cartridge h).2
       = Raise UnknownMaterialError ∧
     (encode checksum crypto_encrypt Timestamp ToDatetime id_from_name
             machine_number eeprom_uid cartridge h).2
       = Raise UnknownMaterialError) ∧
  (∀ (l : loc) (h : heap) (b : list byte) (id : Z),
     h !! l = Some b → length b = 0x71%nat →
     checksum (slice 0x00 0x40 b) = le_int (slice 0x40 0x42 b) →
     checksum (slice 0x58 0x60 b) = le_int (slice 0x62 0x64 b) →
     int_of_float (le_int (slice 0x08 0x10 b)) = Ok id →
     name_from_id id = None →
     unpack checksum Timestamp FromDatetime name_from_id l h
       = (h, Raise UnknownMaterialError)).
Proof.
  split.
  - intros c machine_number eeprom_uid h Hid.
    assert (Hpack : (pack checksum Timestamp ToDatetime id_from_name c h).2
                    = Raise UnknownMaterialError).
    { cut (∃ b' r, pack checksum Timestamp ToDatetime id_from_name c h
                     = (<[fresh (dom h) := b']> h, r) ∧
                   r = Raise UnknownMaterialError).
      { by intros (b' & r & -> & ->). }
      unfold pack.
      apply (wp_new_bytearray (A := loc) 0x71 _
        (λ _ _ (r : result loc), r = Raise UnknownMaterialError)).
      intros eeprom. cbv beta.
      set (b0 := replicate 113 x00).
      assert (Hl0 : length b0 = 113%nat) by apply length_replicate.
      wp_steps. wp_write. wp_steps.
      unfold get_id_from_name. by rewrite Hid. }
    split; [done|].
    unfold encode, mbind, M_bind.
    by destruct (pack _ _ _ _ _ _) as [h1 [p|e]]; simpl in *; subst.
  - intros l h b id Hl Hlen Hcrc Hqcrc Hint Hname.
    unfold unpack, load, lift, mbind, M_bind. rewrite Hl. f_equal.
    unfold unpack_bytes, mbind, result_mbind, result_bind.
    rewrite (unpack_H_slice 0x40), (unpack_H_slice 0x62) by lia.
    cbn [Nat.add]. rewrite Hcrc, Hqcrc, !Z.eqb_refl.
    rewrite !unpack_from_fits by lia. cbn [Nat.add].
    rewrite Hint. unfold get_name_from_id. by rewrite Hname.
Qed.

Lemma unknown_material_is_refused_witness :
  (Sample.sample_encode Sample.unknown_cartridge ∅).2
    = Raise UnknownMaterialError ∧
  unpack Sample.sum16 datetime id (λ _, None) 1%positive
         {[1%positive := Sample.packed]}
    = ({[1%positive := Sample.packed]}, Raise UnknownMaterialError).
Proof.
  pose proof (unknown_material_is_refused Sample.sum16 Sample.xor_cipher
                datetime id id Sample.materials (λ _, None)) as [Hpack Hunpack].
  split.
  - apply (Hpack Sample.unknown_cartridge Sample.machine_number
             Sample.eeprom_uid ∅). reflexivity.
  - apply (Hunpack 1%positive {[1%positive := Sample.packed]} Sample.packed 17);
      vm_compute; reflexivity.
Defined.

(** ** A manufacturing lot that exceeds its field *)

Lemma pack_s_take n bs : pack_s n (take n bs) = pack_s n bs.
Proof.
  unfold pack_s. destruct (decide (n ≤ length bs)%nat).
  - rewrite (take_app_le (take n bs)) by (rewrite length_take; lia).
    rewrite (take_app_le bs) by lia.
    by rewrite take_take, Nat.min_id.
  - by rewrite (take_ge bs) by lia.
Qed.

Lemma pack_s_long n bs : (n ≤ length bs)%nat → pack_s n bs = take n bs.
Proof. intros H. unfold pack_s. by rewrite take_app_le. Qed.

(** C6, as stated, fails: a lot of 21 bytes is packed and encoded without
    any error. *)
Lemma long_lot_is_not_refused :
  (20 < length (encode_utf8 (manufacturing_lot Sample.long_lot_cartridge)))%nat ∧
  (Sample.sample_pack Sample.long_lot_cartridge ∅).2 = Ok 1%positive ∧
  (Sample.sample_encode Sample.long_lot_cartridge ∅).2 = Ok 1%positive.
Proof.
  split; [vm_compute; lia|]. split; vm_compute; reflexivity.
Qed.

(** C6, amended: a [manufacturing_lot] longer than 20 bytes in UTF-8 raises
    nothing: [pack] and [encode] behave exactly as on the record whose lot is
    cut to its first 20 bytes, and a successful [pack] leaves those 20 bytes
    at 0x10..0x24. *)
Theorem long_lot_is_truncated
    (checksum : list byte → Z)
    (crypto_encrypt : list byte → list byte → list byte)
    (Timestamp : Type) (ToDatetime : Timestamp → datetime)
    (id_from_name : string → option Z)
    (machine_number eeprom_uid : list byte)
    (cartridge : Cartridge Timestamp) (h : heap) :
  (20 < length (encode_utf8 (manufacturing_lot cartridge)))%nat →
  let first20 := take 20 (encode_utf8 (manufacturing_lot cartridge)) in
  let cut := with_manufacturing_lot cartridge
               (String.string_of_list_byte first20) in
  pack checksum Timestamp ToDatetime id_from_name cartridge h
    = pack checksum Timestamp ToDatetime id_from_name cut h ∧
  encode checksum crypto_encrypt Timestamp ToDatetime id_from_name
         machine_number eeprom_uid cartridge h
    = encode checksum crypto_encrypt Timestamp ToDatetime id_from_name
             machine_number eeprom_uid cut h ∧
  ∀ h' l, pack checksum Timestamp ToDatetime id_from_name cartridge h
            = (h', Ok l) →
    ∃ b, h' !! l = Some b ∧ slice 0x10 0x24 b = first20.
Proof.
  intros Hlong first20 cut.
  assert (Hpack : pack checksum Timestamp ToDatetime id_from_name cartridge h
                  = pack checksum Timestamp ToDatetime id_from_name cut h).
  { unfold pack, cut, with_manufacturing_lot.
    cbn [serial_number material_name manufacturing_lot manufacturing_date
         last_use_date initial_material_quantity current_material_quantity
         key_fragment version signature].
    unfold encode_utf8 at 2.
    rewrite String.list_byte_of_string_of_list_byte.
    unfold first20. by rewrite pack_s_take. }
  split; [done|]. split.
  { unfold encode, mbind, M_bind. by rewrite Hpack. }
  intros h' l Hrun.
  destruct (pack_body_run checksum Timestamp ToDatetime id_from_name
              cartridge h) as (b' & r & Hrun' & HQ).
  rewrite Hrun in Hrun'. injection Hrun' as -> <-.
  destruct HQ as (-> & idf & mfg & lu & key & _ & Hlayout).
  exists b'. split; [apply lookup_insert_eq|].
  destruct Hlayout as (_ & _ & _ & -> & _). apply pack_s_long. lia.
Qed.

Lemma long_lot_is_truncated_witness :
  Sample.sample_pack Sample.long_lot_cartridge ∅
    = Sample.sample_pack
        (with_manufacturing_lot Sample.long_lot_cartridge
           "ABCDEFGHIJKLMNOPQRST") ∅.
Proof.
  refine (proj1 (long_lot_is_truncated Sample.sum16 Sample.xor_cipher datetime
            id Sample.materials Sample.machine_number Sample.eeprom_uid
            Sample.long_lot_cartridge ∅ _)).
  vm_compute; lia.
Defined.

(** ** The checks of [decode] *)

Lemma build_key_succeeds (key_fragment machine_id device_id : list byte) :
  length key_fragment = 8%nat → length machine_id = 8%nat →
  length device_id = 8%nat →
  ∃ key, build_key key_fragment machine_id device_id = Ok key ∧
         length key = 16%nat.
Proof.
  intros Hk Hm Hd.
  do 9 (destruct key_fragment as [|? key_fragment]; try discriminate Hk).
  do 9 (destruct machine_id as [|? machine_id]; try discriminate Hm).
  do 9 (destruct device_id as [|? device_id]; try discriminate Hd).
  eexists. split; reflexivity.
Qed.

Section Gates.
Variable checksum : list byte → Z.
Variable crypto_decrypt : list byte → list byte → list byte.
Variable Timestamp : Type.
Variable FromDatetime : datetime → Timestamp.
Variable name_from_id : Z → option string.
Hypothesis decrypt_length :
  ∀ key bs, length (crypto_decrypt key bs) = length bs.

Lemma length_header_decrypted key b :
  length (header_decrypted crypto_decrypt key b) = length b.
Proof. apply length_set_slice; [lia | apply decrypt_length]. Qed.

Lemma length_decrypted key b :
  length (decrypted crypto_decrypt key b) = length b.
Proof.
  unfold decrypted. cbv zeta.
  rewrite length_set_slice; [| lia | apply decrypt_length].
  apply length_header_decrypted.
Qed.

(** [decode] on an image of 113 bytes, by cases on the three checks. *)
Lemma decode_run machine_number eeprom_uid l (h : heap) b key :
  h !! l = Some b → length b = 0x71%nat →
  build_key (slice 0x48 0x50 b) machine_number eeprom_uid = Ok key →
  let b1 := header_decrypted crypto_decrypt key b in
  let b2 := decrypted crypto_decrypt key b in
  decode checksum crypto_decrypt Timestamp FromDatetime name_from_id
         machine_number eeprom_uid l h
  = if checksum (slice 0x00 0x40 b) =? le_int (slice 0x46 0x48 b) then
      if checksum (slice 0x58 0x60 b1) =? le_int (slice 0x60 0x62 b1) then
        (<[l := b2]> h,
         unpack_bytes checksum Timestamp FromDatetime name_from_id b2)
      else (<[l := b1]> h, Raise InvalidQuantityChecksum)
    else (h, Raise InvalidCryptedContentChecksum).
Proof.
  intros Hl Hlen Hkey b1 b2.
  destruct (decrypt_run checksum crypto_decrypt machine_number eeprom_uid
              l b h Hl) as (b' & r & Hrun & HQ).
  rewrite Hkey in HQ.
  rewrite (unpack_H_slice 0x46) in HQ by lia. cbn [Nat.add] in HQ.
  unfold decode, mbind at 1, M_bind at 1. rewrite Hrun.
  destruct (checksum _ =? le_int (slice 70 72 b)).
  - cbv zeta in HQ. fold (header_decrypted crypto_decrypt key b) in HQ.
    fold b1 in HQ.
    rewrite (unpack_H_slice 0x60) in HQ
      by (unfold b1; rewrite length_header_decrypted; lia).
    cbn [Nat.add] in HQ.
    destruct (checksum _ =? le_int (slice 96 98 b1)).
    + destruct HQ as [-> ->]. fold b2.
      unfold unpack, load, lift, mbind, M_bind.
      rewrite lookup_insert_eq.
      by destruct (unpack_bytes _ _ _ _ b2).
    + by destruct HQ as [-> ->].
  - destruct HQ as [-> ->]. by rewrite insert_id.
Qed.

End Gates.

(** C2: [decode] checks the token at 0x46 on the image as given, then the
    token at 0x60 on the image whose header alone is decrypted, then the
    checksum at 0x40 on the decrypted bytes, and stops at the first mismatch
    with an [IntegrityError]; no record is returned unless the three checks
    pass. *)
Theorem decode_gates
    (checksum : list byte → Z)
    (crypto_decrypt : list byte → list byte → list byte)
    (Timestamp : Type) (FromDatetime : datetime → Timestamp)
    (name_from_id : Z → option string)
    (machine_number eeprom_uid : list byte) (l : loc) (h : heap)
    (b : list byte) :
  (∀ key bs, length (crypto_decrypt key bs) = length bs) →
  h !! l = Some b → length b = 0x71%nat →
  length machine_number = 8%nat → length eeprom_uid = 8%nat →
  let decoded := decode checksum crypto_decrypt Timestamp FromDatetime
                        name_from_id machine_number eeprom_uid l h in
  ∃ key, build_key (slice 0x48 0x50 b) machine_number eeprom_uid = Ok key ∧
    let b1 := header_decrypted crypto_decrypt key b in
    let b2 := decrypted crypto_decrypt key b in
    (¬ header_token_ok checksum b →
       decoded = (h, Raise InvalidCryptedContentChecksum)) ∧
    (header_token_ok checksum b → ¬ quantity_token_ok checksum b1 →
       decoded = (<[l := b1]> h, Raise InvalidQuantityChecksum)) ∧
    (header_token_ok checksum b → quantity_token_ok checksum b1 →
     ¬ content_checksum_ok checksum b2 →
       ∃ e, decoded = (<[l := b2]> h, Raise e) ∧ IntegrityError e) ∧
    (∀ h' cartridge, decoded = (h', Ok cartridge) →
       header_token_ok checksum b ∧ quantity_token_ok checksum b1 ∧
       content_checksum_ok checksum b2).
Proof.
  intros Hdec Hl Hlen Hm Hd decoded.
  destruct (build_key_succeeds (slice 0x48 0x50 b) machine_number eeprom_uid)
    as (key & Hkey & _); [by rewrite length_slice, Hlen | done | done |].
  exists key. split; [done|]. intros b1 b2.
  pose proof (decode_run checksum crypto_decrypt Timestamp FromDatetime
                name_from_id Hdec machine_number eeprom_uid l h b key
                Hl Hlen Hkey) as Hrun.
  cbv zeta in Hrun. fold b1 b2 decoded in Hrun.
  unfold header_token_ok, quantity_token_ok, content_checksum_ok.
  assert (Hb2 : length b2 = 0x71%nat)
    by (unfold b2; by rewrite length_decrypted).
  assert (Hgate3 : checksum (slice 0 64 b2) ≠ le_int (slice 64 66 b2) →
            ∃ e, unpack_bytes checksum Timestamp FromDatetime name_from_id b2
                 = Raise e ∧ IntegrityError e).
  { intros Hne. unfold unpack_bytes, mbind, result_mbind, result_bind.
    rewrite (unpack_H_slice 0x40) by lia. cbn [Nat.add].
    apply Z.eqb_neq in Hne. rewrite Hne. eexists. split; [reflexivity | exact I]. }
  destruct (Z.eqb_spec (checksum (slice 0 64 b)) (le_int (slice 70 72 b)))
    as [Hg1|Hg1].
  2: { split; [by intros _|]. split; [done|]. split; [done|].
       intros h' c. rewrite Hrun. intros [=]. }
  destruct (Z.eqb_spec (checksum (slice 88 96 b1)) (le_int (slice 96 98 b1)))
    as [Hg2|Hg2].
  2: { split; [done|]. split; [by intros _ _|]. split; [done|].
       intros h' c. rewrite Hrun. intros [=]. }
  split; [done|]. split; [done|]. split.
  - intros _ _ Hg3. destruct (Hgate3 Hg3) as (e & He & Hint).
    exists e. by rewrite Hrun, He.
  - intros h' c. rewrite Hrun. intros [= <- Hc].
    split; [done|]. split; [done|].
    destruct (decide (checksum (slice 0 64 b2) = le_int (slice 64 66 b2)))
      as [|Hne]; [done|].
    destruct (Hgate3 Hne) as (e & He & _). congruence.
Qed.

Lemma decode_gates_witness :
  ∃ key, build_key (slice 0x48 0x50 Sample.crypted) Sample.machine_number
           Sample.eeprom_uid = Ok key.
Proof.
  destruct (decode_gates Sample.sum16 Sample.xor_cipher datetime id
              Sample.material_names Sample.machine_number Sample.eeprom_uid
              1%positive {[1%positive := Sample.crypted]} Sample.crypted)
    as (key & Hkey & _);
    [ apply xor_cipher_length | vm_compute; reflexivity | reflexivity
    | reflexivity | reflexivity | ].
  exists key. exact Hkey.
Defined.

(** ** Tampering with an image *)

Lemma slice_alter_out (f : byte → byte) i a c (b : list byte) :
  ¬ (a ≤ i < c)%nat → slice a c (alter f i b) = slice a c b.
Proof.
  intros Hi. apply list_eq. intros k. rewrite !lookup_slice.
  case_decide; [|done]. apply list_lookup_alter_ne. lia.
Qed.

Lemma slice_alter_in (f : byte → byte) i a c (b : list byte) :
  (a ≤ i < c)%nat → slice a c (alter f i b) = alter f (i - a)%nat (slice a c b).
Proof.
  intros Hi. apply list_eq. intros k.
  destruct (decide (k = i - a)%nat) as [->|Hne].
  - rewrite list_lookup_alter_eq, !lookup_slice.
    case_decide; [|lia]. replace (a + (i - a))%nat with i by lia.
    apply list_lookup_alter_eq.
  - rewrite list_lookup_alter_ne by done. rewrite !lookup_slice.
    case_decide; [|done]. apply list_lookup_alter_ne. lia.
Qed.

Lemma same_outside_header_decrypted
    (crypto_decrypt : list byte → list byte → list byte) key b :
  (∀ key bs, length (crypto_decrypt key bs) = length bs) →
  same_outside (λ i, i < 0x40)%nat b (header_decrypted crypto_decrypt key b).
Proof.
  intros Hlen. apply same_outside_set_slice;
    [apply same_outside_refl | lia | apply Hlen | intros k Hk; lia].
Qed.

Lemma byte_to_Z_inj a b : byte_to_Z a = byte_to_Z b → a = b.
Proof.
  intros H. rewrite <- (byte_of_to_Z a), <- (byte_of_to_Z b). by rewrite H.
Qed.

Lemma flip_bit_changes k b : 0 <= k < 8 → flip_bit k b ≠ b.
Proof.
  intros Hk Heq. apply (f_equal byte_to_Z) in Heq.
  unfold flip_bit in Heq. rewrite byte_to_of_Z in Heq.
  apply (f_equal (λ z, Z.testbit z k)) in Heq.
  change 256 with (2 ^ 8) in Heq.
  rewrite Z.mod_pow2_bits_low, Z.lxor_spec, Z.shiftl_1_l in Heq by lia.
  rewrite Z.pow2_bits_true in Heq by lia.
  by destruct (Z.testbit (byte_to_Z b) k).
Qed.

Lemma mod_eq_near x y m :
  - m < x - y < m → x mod m = y mod m → x = y.
Proof.
  intros Hd Heq.
  assert (Hm : 0 < m) by lia.
  pose proof (Z.div_mod x m ltac:(lia)) as Hx.
  pose proof (Z.div_mod y m ltac:(lia)) as Hy.
  rewrite Heq in Hx.
  assert (x - y = m * (x / m - y / m)) as Hxy by lia.
  assert (x / m - y / m = 0) by nia. lia.
Qed.

Lemma sum16_range bs : 0 <= Sample.sum16 bs < 0x10000.
Proof.
  destruct bs as [|b bs]; simpl; [lia|]. apply Z.mod_pos_bound. lia.
Qed.

Lemma sum16_detects bs i k :
  (i < length bs)%nat → 0 <= k < 8 →
  Sample.sum16 (tamper i k bs) ≠ Sample.sum16 bs.
Proof.
  intros Hi Hk. unfold tamper. revert i Hi.
  induction bs as [|b bs IH]; intros i Hi; [simpl in Hi; lia|].
  destruct i as [|i].
  - cbn [alter list_alter Sample.sum16 fold_right].
    fold (Sample.sum16 bs). intros Heq.
    pose proof (byte_to_Z_range b). pose proof (byte_to_Z_range (flip_bit k b)).
    apply mod_eq_near in Heq; [|lia].
    apply (flip_bit_changes k b Hk), byte_to_Z_inj. lia.
  - cbn [alter list_alter Sample.sum16 fold_right].
    fold (Sample.sum16 bs). fold (Sample.sum16 (alter (flip_bit k) i bs)).
    intros Heq.
    pose proof (sum16_range bs). pose proof (sum16_range (alter (flip_bit k) i bs)).
    apply mod_eq_near in Heq; [|lia].
    apply (IH i); [simpl in Hi; lia | lia].
Qed.

(** C5: on an image made by [encode], with a cipher that keeps lengths and
    a checksum that detects the flip of one bit, flipping any bit of the
    header region or of the quantity region makes [decode], under the same
    identifiers, raise an [IntegrityError]; no record is returned. *)
Theorem tamper_is_detected
    (checksum : list byte → Z)
    (crypto_encrypt crypto_decrypt : list byte → list byte → list byte)
    (Timestamp : Type) (ToDatetime : Timestamp → datetime)
    (FromDatetime : datetime → Timestamp)
    (id_from_name : string → option Z) (name_from_id : Z → option string)
    (machine_number eeprom_uid : list byte) (cartridge : Cartridge Timestamp)
    (h h1 : heap) (l : loc) (i : nat) (k : Z) :
  (∀ key bs, length (crypto_decrypt key bs) = length bs) →
  (∀ bs j n, (j < length bs)%nat → 0 <= n < 8 →
     checksum (tamper j n bs) ≠ checksum bs) →
  encode checksum crypto_encrypt Timestamp ToDatetime id_from_name
         machine_number eeprom_uid cartridge h = (h1, Ok l) →
  (i < 0x40 ∨ 0x58 ≤ i < 0x60)%nat → 0 <= k < 8 →
  ∃ image, h1 !! l = Some image ∧
    ∃ h2 e,
      decode checksum crypto_decrypt Timestamp FromDatetime name_from_id
             machine_number eeprom_uid l (<[l := tamper i k image]> h1)
        = (h2, Raise e) ∧
      IntegrityError e.
Proof.
  intros Hdec Hdetect Henc Hi Hk.
  unfold encode, mbind, M_bind in Henc.
  destruct (pack_body_run checksum Timestamp ToDatetime id_from_name
              cartridge h) as (bp & r & Hpack & HQ).
  rewrite Hpack in Henc. destruct r as [l0|e]; [|discriminate Henc].
  destruct HQ as (-> & idf & mfg & lu & kf & _ & Hlayout).
  cbv beta iota in Henc.
  lazymatch type of Henc with
  | context [encrypt _ _ _ _ ?l0 ?h0] =>
    destruct (encrypt_run checksum crypto_encrypt machine_number eeprom_uid
                l0 bp h0) as (image & r & Hrun & HQ);
      [apply lookup_insert_eq|];
    set (l0' := l0) in *
  end.
  rewrite Hrun in Henc. destruct r as [l1|e]; [|discriminate Henc].
  unfold mret, M_ret in Henc. injection Henc as <- <-.
  destruct HQ as (-> & _ & key & Hkey & _ & Hc1 & Hc2 & _ & Htok & _ & Hqtok
                  & Hsame).
  assert (Hlen : length image = 0x71%nat).
  { destruct Hsame as [-> _]. apply Hlayout. }
  exists image. split; [apply lookup_insert_eq|].
  set (image' := tamper i k image).
  assert (Hlen' : length image' = 0x71%nat)
    by (unfold image', tamper; by rewrite length_alter).
  assert (Hkey' : build_key (slice 0x48 0x50 image') machine_number eeprom_uid
                  = Ok key).
  { unfold image', tamper. rewrite slice_alter_out by lia.
    rewrite (slice_same_outside transformed _ _ bp image Hsame); [done|].
    unfold transformed. lia. }
  rewrite (decode_run checksum crypto_decrypt Timestamp FromDatetime
             name_from_id Hdec machine_number eeprom_uid l0' _ image' key
             (lookup_insert_eq _ _ _) Hlen' Hkey').
  cbv zeta.
  destruct (Z.eqb_spec (checksum (slice 0 64 image'))
              (le_int (slice 70 72 image'))) as [Hg1|Hg1].
  2: { do 2 eexists. split; [reflexivity | exact I]. }
  set (b1 := header_decrypted crypto_decrypt key image') in *.
  destruct (Z.eqb_spec (checksum (slice 88 96 b1)) (le_int (slice 96 98 b1)))
    as [Hg2|Hg2].
  2: { do 2 eexists. split; [reflexivity | exact I]. }
  exfalso. destruct Hi as [Hi|Hi].
  - unfold image', tamper in Hg1.
    rewrite (slice_alter_out _ _ 70 72) in Hg1 by lia.
    rewrite (slice_alter_in _ _ 0 64) in Hg1 by lia.
    rewrite Htok, le_int_le_bytes_small in Hg1 by (simpl; lia).
    revert Hg1. apply Hdetect; [rewrite length_slice; lia | done].
  - pose proof (same_outside_header_decrypted crypto_decrypt key image' Hdec)
      as Hs. fold b1 in Hs.
    rewrite (slice_same_outside _ 88 96 _ _ Hs) in Hg2 by (intros; lia).
    rewrite (slice_same_outside _ 96 98 _ _ Hs) in Hg2 by (intros; lia).
    unfold image', tamper in Hg2.
    rewrite (slice_alter_out _ _ 96 98) in Hg2 by lia.
    rewrite (slice_alter_in _ _ 88 96) in Hg2 by lia.
    rewrite Hqtok, le_int_le_bytes_small in Hg2 by (simpl; lia).
    revert Hg2. apply Hdetect; [rewrite length_slice; lia | done].
Qed.

Lemma tamper_is_detected_witness :
  ∃ h2 e,
    Sample.sample_decode 1%positive
      (<[1%positive := tamper 3 0 Sample.crypted]>
         (Sample.sample_encode Sample.cartridge ∅).1) = (h2, Raise e) ∧
    IntegrityError e.
Proof.
  destruct (tamper_is_detected Sample.sum16 Sample.xor_cipher Sample.xor_cipher
              datetime id id Sample.materials Sample.material_names
              Sample.machine_number Sample.eeprom_uid Sample.cartridge
              ∅ (Sample.sample_encode Sample.cartridge ∅).1 1%positive
              3%nat 0)
    as (image & Himage & h2 & e & Hrun & He);
    [ apply xor_cipher_length | apply sum16_detects
    | vm_compute; reflexivity | left; lia | lia | ].
  assert (image = Sample.crypted) as ->.
  { vm_compute in Himage. by injection Himage. }
  exists h2, e. split; assumption.
Defined.

(** ** The round trip *)

Lemma int_of_float_bits s E f :
  0 <= s <= 1 → 0 < E < 0x7ff → 0 <= f < 2 ^ 52 →
  int_of_float (s * 2 ^ 63 + E * 2 ^ 52 + f)
  = Ok (let mag := if 1075 <=? E then Z.shiftl (2 ^ 52 + f) (E - 1075)
                   else Z.shiftr (2 ^ 52 + f) (1075 - E) in
        if s =? 1 then - mag else mag).
Proof.
  intros Hs HE Hf. unfold int_of_float.
  assert (Hs63 : Z.shiftr (s * 2 ^ 63 + E * 2 ^ 52 + f) 63 = s).
  { rewrite Z.shiftr_div_pow2 by lia.
    replace (s * 2 ^ 63 + E * 2 ^ 52 + f) with (E * 2 ^ 52 + f + s * 2 ^ 63) by lia.
    rewrite Z.div_add by lia. rewrite Z.div_small; lia. }
  assert (He52 : Z.shiftr (s * 2 ^ 63 + E * 2 ^ 52 + f) 52 = s * 2 ^ 11 + E).
  { rewrite Z.shiftr_div_pow2 by lia.
    replace (s * 2 ^ 63 + E * 2 ^ 52 + f)
      with (f + (s * 2 ^ 11 + E) * 2 ^ 52) by lia.
    rewrite Z.div_add by lia. rewrite Z.div_small; lia. }
  rewrite Hs63, He52.
  change 0x7ff with (Z.ones 11). change 1 with (Z.ones 1) at 1.
  rewrite !Z.land_ones by lia.
  replace ((s * 2 ^ 11 + E) mod 2 ^ 11) with E.
  2: { rewrite Z.add_comm, Z.mod_add by lia. rewrite Z.mod_small; lia. }
  replace ((s * 2 ^ 63 + E * 2 ^ 52 + f) mod 2 ^ 52) with f.
  2: { replace (s * 2 ^ 63 + E * 2 ^ 52 + f)
         with (f + (s * 2 ^ 11 + E) * 2 ^ 52) by lia.
       rewrite Z.mod_add by lia. rewrite Z.mod_small; lia. }
  rewrite (Z.mod_small s) by (change (2 ^ 1) with 2; lia).
  destruct (E =? Z.ones 11) eqn:E1; [apply Z.eqb_eq in E1; change (Z.ones 11) with 2047 in E1; lia|].
  destruct (E =? 0) eqn:E2; [apply Z.eqb_eq in E2; lia|].
  reflexivity.
Qed.

Lemma int_of_float_of_int n :
  - 2 ^ 53 < n < 2 ^ 53 →
  ∃ x, float_of_int n = Ok x ∧ 0 <= x < 2 ^ 64 ∧ int_of_float x = Ok n.
Proof.
  intros Hn. unfold float_of_int.
  destruct (Z.eqb_spec n 0) as [->|Hn0].
  { exists 0. split; [done|]. split; [lia | reflexivity]. }
  set (a := Z.abs n). set (e := Z.log2 a).
  assert (Ha : 0 < a < 2 ^ 53) by (unfold a; lia).
  assert (He : 0 <= e <= 52).
  { unfold e. split; [apply Z.log2_nonneg|].
    apply Z.lt_succ_r. apply Z.log2_lt_pow2; lia. }
  pose proof (Z.log2_spec a ltac:(lia)) as Hlog. fold e in Hlog.
  clearbody e.
  destruct (Z.leb_spec e 52) as [_|]; [|lia].
  destruct (Z.ltb_spec 1023 e) as [|_]; [lia|].
  set (s := if n <? 0 then 1 else 0).
  assert (Hs : 0 <= s <= 1) by (unfold s; destruct (n <? 0); lia).
  rewrite Z.shiftl_mul_pow2 by lia.
  assert (Hpow : 2 ^ e * 2 ^ (52 - e) = 2 ^ 52).
  { rewrite <- Z.pow_add_r by lia. f_equal. lia. }
  assert (Hpos : 0 < 2 ^ (52 - e)) by (apply Z.pow_pos_nonneg; lia).
  assert (Hm : 2 ^ 52 <= a * 2 ^ (52 - e) < 2 ^ 53).
  { replace (Z.succ e) with (e + 1) in Hlog by lia.
    rewrite Z.pow_add_r in Hlog by lia. change (2 ^ 1) with 2 in Hlog.
    change (2 ^ 53) with (2 * 2 ^ 52). nia. }
  eexists. split; [reflexivity|].
  split.
  { change (2 ^ 63) with (2048 * 2 ^ 52). change (2 ^ 64) with (4096 * 2 ^ 52).
    change (2 ^ 53) with (2 * 2 ^ 52) in Hm. nia. }
  rewrite int_of_float_bits by lia. f_equal. cbv zeta.
  replace (2 ^ 52 + (a * 2 ^ (52 - e) - 2 ^ 52)) with (a * 2 ^ (52 - e)) by lia.
  assert (Hmag : (if 1075 <=? e + 1023
                  then Z.shiftl (a * 2 ^ (52 - e)) (e + 1023 - 1075)
                  else Z.shiftr (a * 2 ^ (52 - e)) (1075 - (e + 1023))) = a).
  { destruct (Z.leb_spec 1075 (e + 1023)).
    - assert (e = 52) as -> by lia.
      replace (52 + 1023 - 1075) with 0 by lia.
      replace (52 - 52) with 0 by lia. rewrite Z.shiftl_0_r. lia.
    - rewrite Z.shiftr_div_pow2 by lia.
      replace (1075 - (e + 1023)) with (52 - e) by lia.
      apply Z.div_mul. lia. }
  rewrite Hmag. unfold s, a. destruct (Z.ltb_spec n 0); simpl; lia.
Qed.

Lemma split_nul_replicate k : split_nul (replicate k x00) = [].
Proof. by destruct k. Qed.

Lemma split_nul_app_zeros bs k :
  x00 ∉ bs → split_nul (bs ++ replicate k x00) = bs.
Proof.
  induction bs as [|b bs IH]; intros Hnul; [apply split_nul_replicate|].
  cbn [app split_nul].
  destruct (Byte.eqb b x00) eqn:E.
  - apply Byte.byte_dec_bl in E. subst b. exfalso. apply Hnul. by left.
  - f_equal. apply IH. intros Hin. apply Hnul. by right.
Qed.

Lemma pack_s_short n bs :
  (length bs ≤ n)%nat → pack_s n bs = bs ++ replicate (n - length bs) x00.
Proof.
  intros H. unfold pack_s. rewrite take_app_ge by done.
  by rewrite take_replicate, Nat.min_l by lia.
Qed.

Lemma pack_s_exact n bs : length bs = n → pack_s n bs = bs.
Proof.
  intros H. rewrite pack_s_short by lia.
  rewrite H, Nat.sub_diag. apply app_nil_r.
Qed.

Lemma split_nul_pack_s n bs :
  (length bs ≤ n)%nat → x00 ∉ bs → split_nul (pack_s n bs) = bs.
Proof. intros. rewrite pack_s_short by done. by apply split_nul_app_zeros. Qed.

Lemma fromhex_hex raw : fromhex (hex raw) = Ok raw.
Proof.
  induction raw as [|b raw IH]; [done|].
  change (hex (b :: raw))
    with (hex_digit (byte_to_Z b / 16) :: hex_digit (byte_to_Z b mod 16) :: hex raw).
  transitivity (bs ← fromhex (hex raw); mret (b :: bs)).
  - generalize (hex raw). intros rest. destruct b; reflexivity.
  - by rewrite IH.
Qed.

Lemma decode_utf8_encode s :
  utf8_valid (encode_utf8 s) = true → decode_utf8 (encode_utf8 s) = Ok s.
Proof.
  intros H. unfold decode_utf8. rewrite H. unfold encode_utf8.
  by rewrite String.string_of_list_byte_of_string.
Qed.

Lemma le_int_pack_d x : 0 <= x < 2 ^ 64 → le_int (pack_d x) = x.
Proof. intros H. apply le_int_le_bytes_small. exact H. Qed.

Lemma valid_datetime_drop_microsecond dt :
  valid_datetime dt = true → valid_datetime (drop_microsecond dt) = true.
Proof.
  unfold valid_datetime, drop_microsecond.
  cbn [year month day hour minute second microsecond].
  rewrite !andb_true_iff. intros H. repeat split; try apply H; reflexivity.
Qed.

Lemma unpack_datetime_pack_datetime dt bs :
  pack_datetime dt = Ok bs → valid_datetime dt = true →
  unpack_datetime bs = Ok (drop_microsecond dt).
Proof.
  intros Hp Hv.
  apply pack_datetime_Ok in Hp as (-> & Hy & Hmo & Hd & Hh & Hmi & Hs).
  unfold unpack_datetime.
  cbn [slice take drop le_bytes app Nat.sub].
  pose proof (le_int_le_bytes 2) as H2. pose proof (le_int_le_bytes 1) as H1.
  cbn [le_bytes] in H1, H2.
  rewrite !H1, !H2.
  change (256 ^ Z.of_nat 2) with 65536. change (256 ^ Z.of_nat 1) with 256.
  rewrite !Z.mod_small by lia.
  replace (year dt - 1900 + 1900) with (year dt) by lia.
  unfold datetime_new. fold (drop_microsecond dt).
  by rewrite valid_datetime_drop_microsecond.
Qed.
Lemma days_in_month_le y m : days_in_month y m <= 31.
Proof.
  unfold days_in_month.
  destruct (m =? 2); [destruct (is_leap y); lia|].
  destruct ((m =? 4) || (m =? 6) || (m =? 9) || (m =? 11)); lia.
Qed.

Lemma pack_datetime_valid dt :
  valid_datetime dt = true → 1900 <= year dt →
  ∃ bs, pack_datetime dt = Ok bs.
Proof.
  intros Hv Hy. unfold valid_datetime in Hv.
  rewrite !andb_true_iff, !Z.leb_le in Hv.
  pose proof (days_in_month_le (year dt) (month dt)).
  unfold pack_datetime, pack_H, pack_B.
  repeat match goal with
  | |- context [(?a <=? ?b)] =>
    let E := fresh in
    destruct (Z.leb_spec a b) as [E|E]; [|lia]
  end.
  eexists. reflexivity.
Qed.

Lemma lookup_set_slice_in i j xs (b : list byte) k :
  (i ≤ k < j)%nat → (j ≤ length b)%nat → length xs = (j - i)%nat →
  set_slice i j xs b !! k = xs !! (k - i)%nat.
Proof.
  intros Hk Hj Hxs. unfold set_slice.
  rewrite lookup_app_r by (rewrite length_take; lia).
  rewrite length_take, Nat.min_l by lia.
  rewrite lookup_app_l by lia. done.
Qed.

Lemma layout_same_outside {Timestamp} checksum (c : Cartridge Timestamp)
    idf mfg lu key b b' :
  layout checksum c idf mfg lu key b → same_outside token_slot b b' →
  layout checksum c idf mfg lu key b'.
Proof.
  intros Hl Hs. unfold layout in *.
  rewrite !(slice_same_outside token_slot _ _ b b' Hs)
    by (intros k Hk; unfold token_slot; lia).
  destruct Hs as [-> _]. exact Hl.
Qed.

Section RoundTrip.
Variable checksum : list byte → Z.
Variable crypto_encrypt crypto_decrypt : list byte → list byte → list byte.
Hypothesis decrypt_encrypt :
  ∀ key bs, crypto_decrypt key (crypto_encrypt key bs) = bs.
Hypothesis encrypt_length :
  ∀ key bs, length (crypto_encrypt key bs) = length bs.
Hypothesis decrypt_length :
  ∀ key bs, length (crypto_decrypt key bs) = length bs.

Lemma decrypted_encrypted key b image :
  length b = 0x71%nat →
  same_outside transformed b image →
  slice 0x00 0x40 image = pack_s 64 (crypto_encrypt key (slice 0x00 0x40 b)) →
  slice 0x58 0x60 image = pack_s 8 (crypto_encrypt key (slice 0x58 0x60 b)) →
  same_outside token_slot b (decrypted crypto_decrypt key image).
Proof.
  intros Hlen Hsame Hhdr Hq.
  pose proof (proj1 Hsame) as Hlen'.
  rewrite pack_s_exact in Hhdr
    by (rewrite encrypt_length, length_slice; lia).
  rewrite pack_s_exact in Hq
    by (rewrite encrypt_length, length_slice; lia).
  unfold decrypted. cbv zeta.
  fold (header_decrypted crypto_decrypt key image).
  pose proof (same_outside_header_decrypted crypto_decrypt key image
                decrypt_length) as Hs1.
  set (b1 := header_decrypted crypto_decrypt key image) in *.
  rewrite (slice_same_outside _ 88 96 _ _ Hs1) by (intros; lia).
  rewrite Hq, decrypt_encrypt.
  assert (Hb1 : ∀ k, (k < 64)%nat → b1 !! k = b !! k).
  { intros k Hk. unfold b1, header_decrypted.
    rewrite Hhdr, decrypt_encrypt.
    rewrite lookup_set_slice_in by (rewrite ?length_slice; lia).
    rewrite lookup_slice. case_decide; [|lia]. f_equal. lia. }
  split.
  - rewrite length_set_slice; [| lia | rewrite !length_slice; destruct Hs1; lia].
    destruct Hs1 as [-> _]. done.
  - intros k Hk. unfold token_slot in Hk.
    destruct (decide (88 ≤ k < 96)%nat).
    + rewrite lookup_set_slice_in
        by (rewrite ?length_slice; destruct Hs1; lia).
      rewrite lookup_slice. case_decide; [|lia]. f_equal. lia.
    + rewrite lookup_set_slice_outside;
        [| lia | rewrite !length_slice; destruct Hs1; lia | done].
      destruct (decide (k < 64)%nat); [by apply Hb1|].
      destruct Hs1 as [_ ->]; [|lia].
      destruct Hsame as [_ ->]; [done|]. unfold transformed. lia.
Qed.

End RoundTrip.

Section Unpack.
Variable checksum : list byte → Z.
Variable Timestamp : Type.
Variable ToDatetime : Timestamp → datetime.
Variable FromDatetime : datetime → Timestamp.
Variable id_from_name : string → option Z.
Variable name_from_id : Z → option string.

Lemma unpack_bytes_layout (c : Cartridge Timestamp) idf mfg lu key b :
  layout checksum c idf mfg lu key b →
  stored_exactly ToDatetime id_from_name name_from_id c →
  packable ToDatetime id_from_name c idf mfg lu key →
  unpack_bytes checksum Timestamp FromDatetime name_from_id b
  = Ok (truncate_dates ToDatetime FromDatetime c).
Proof.
  intros (Hlen & Hserial & Hidf & Hlot & Hver & Hmfg & Hlu & Hinit & Hcrc &
          Hkey & _ & Hcur & Hqcrc & Hsig & Hc1 & Hc2)
         (Hfs & Hfi & Hfc & (id & Hid & Hidr & Hname) & Hlotlen & Hlotnul &
          Hlotutf & Hv & Hmv & Hmy & Hlv & Hly & (raw & Hrawlen & Hraw) &
          Hsiglen & Hsigutf)
         ((id' & Hid' & Hfloat) & _ & Hpm & Hpl & Hhex).
  unfold get_id_from_name in Hid'. rewrite Hid in Hid'. injection Hid' as <-.
  destruct (int_of_float_of_int id Hidr) as (x & Hx & Hxr & Hint).
  rewrite Hfloat in Hx. injection Hx as <-.
  rewrite Hraw, fromhex_hex in Hhex. injection Hhex as <-.
  unfold unpack_bytes, mbind, result_mbind, result_bind.
  rewrite (unpack_H_slice 0x40), (unpack_H_slice 0x62) by lia.
  rewrite !unpack_from_fits by lia.
  cbn [Nat.add].
  rewrite Hcrc, Hqcrc.
  rewrite (le_int_le_bytes_small 2 (checksum (slice 0 64 b))) by (simpl; lia).
  rewrite (le_int_le_bytes_small 2 (checksum (slice 88 96 b))) by (simpl; lia).
  rewrite !Z.eqb_refl.
  rewrite Hserial, Hidf, Hlot, Hver, Hmfg, Hlu, Hinit, Hkey, Hcur, Hsig.
  rewrite (le_int_le_bytes_small 2 (version c)) by (simpl; lia).
  rewrite !le_int_pack_d by done.
  rewrite Hint. unfold get_name_from_id. rewrite Hname.
  rewrite (unpack_datetime_pack_datetime _ _ Hpm Hmv).
  rewrite (unpack_datetime_pack_datetime _ _ Hpl Hlv).
  rewrite split_nul_pack_s by done.
  rewrite decode_utf8_encode by done.
  rewrite !pack_s_exact by done.
  rewrite decode_utf8_encode by done.
  unfold mret, result_ret, truncate_dates. f_equal. f_equal.
  rewrite <- Hraw. apply String.string_of_list_byte_of_string.
Qed.

End Unpack.

Lemma xor_cipher_involutive key bs :
  Sample.xor_cipher key (Sample.xor_cipher key bs) = bs.
Proof.
  unfold Sample.xor_cipher. destruct key as [|k _]; [done|].
  rewrite map_map. rewrite <- (map_id bs) at 2. apply map_ext. intros b.
  apply byte_to_Z_inj. rewrite !byte_to_of_Z.
  pose proof (byte_to_Z_range b) as Hb. pose proof (byte_to_Z_range k) as Hk.
  change 256 with (2 ^ 8) in *.
  rewrite <- (Z.mod_small (byte_to_Z b) (2 ^ 8)) at 2 by lia.
  apply Z.bits_inj'. intros n Hn.
  destruct (Z.lt_ge_cases n 8).
  - rewrite !Z.mod_pow2_bits_low, Z.lxor_spec by lia.
    rewrite Z.mod_pow2_bits_low, Z.lxor_spec by lia.
    by destruct (Z.testbit (byte_to_Z b) n), (Z.testbit (byte_to_Z k) n).
  - by rewrite !Z.mod_pow2_bits_high by lia.
Qed.

(** C1, as stated, fails: a signature shorter than its 9 bytes comes back
    padded with zero bytes, and a key fragment written in uppercase
    hexadecimal comes back in lowercase. *)
Lemma round_trip_changes_some_records :
  ((Sample.sample_encode Sample.short_signature_cartridge
      ≫= Sample.sample_decode) ∅).2
    = Ok (with_signature Sample.cartridge
            (String.string_of_list_byte
               [x41; x42; x43; x00; x00; x00; x00; x00; x00])) ∧
  ((Sample.sample_encode Sample.short_signature_cartridge
      ≫= Sample.sample_decode) ∅).2
    ≠ Ok (truncate_dates id id Sample.short_signature_cartridge) ∧
  ((Sample.sample_encode Sample.uppercase_key_cartridge
      ≫= Sample.sample_decode) ∅).2
    = Ok Sample.cartridge ∧
  ((Sample.sample_encode Sample.uppercase_key_cartridge
      ≫= Sample.sample_decode) ∅).2
    ≠ Ok (truncate_dates id id Sample.uppercase_key_cartridge).
Proof.
  split; [vm_compute; reflexivity|].
  split; [vm_compute; intros [=]|].
  split; [vm_compute; reflexivity|].
  vm_compute; intros [=].
Qed.

(** C1, amended: for every record that the image holds without loss
    ([stored_exactly]: in particular a signature of exactly 9 bytes, a lot of
    at most 20 bytes without zero byte and a key fragment in lowercase
    hexadecimal) and every pair of 8-byte identifiers, with a cipher whose
    decrypt inverts its encrypt, both keeping lengths, and a checksum on 16
    bits, [encode] succeeds and [decode] of its image, under the same
    identifiers, returns the record with its dates cut to the second. *)
Theorem decode_encode_round_trip
    (checksum : list byte → Z)
    (crypto_encrypt crypto_decrypt : list byte → list byte → list byte)
    (Timestamp : Type) (ToDatetime : Timestamp → datetime)
    (FromDatetime : datetime → Timestamp)
    (id_from_name : string → option Z) (name_from_id : Z → option string)
    (machine_number eeprom_uid : list byte) (cartridge : Cartridge Timestamp)
    (h : heap) :
  (∀ key bs, crypto_decrypt key (crypto_encrypt key bs) = bs) →
  (∀ key bs, length (crypto_encrypt key bs) = length bs) →
  (∀ key bs, length (crypto_decrypt key bs) = length bs) →
  (∀ bs, 0 <= checksum bs <= 0xffff) →
  length machine_number = 8%nat → length eeprom_uid = 8%nat →
  stored_exactly ToDatetime id_from_name name_from_id cartridge →
  ∃ l h1 h2,
    encode checksum crypto_encrypt Timestamp ToDatetime id_from_name
           machine_number eeprom_uid cartridge h = (h1, Ok l) ∧
    decode checksum crypto_decrypt Timestamp FromDatetime name_from_id
           machine_number eeprom_uid l h1
      = (h2, Ok (truncate_dates ToDatetime FromDatetime cartridge)).
Proof.
  intros Hde Hel Hdl Hrange Hm Hd Hc.
  assert (Hpackable : ∃ idf mfg lu key,
            packable ToDatetime id_from_name cartridge idf mfg lu key).
  { destruct Hc as (_ & _ & _ & (id & Hid & Hidr & _) & _ & _ & _ & Hv & Hmv &
                    Hmy & Hlv & Hly & (raw & _ & Hraw) & _).
    destruct (int_of_float_of_int id Hidr) as (x & Hx & _).
    destruct (pack_datetime_valid _ Hmv Hmy) as (mfg & Hmfg).
    destruct (pack_datetime_valid _ Hlv Hly) as (lu & Hlu).
    exists x, mfg, lu, raw. split.
    { exists id. split; [|done]. unfold get_id_from_name. by rewrite Hid. }
    split; [done|]. split; [done|]. split; [done|].
    rewrite Hraw. apply fromhex_hex. }
  destruct (pack_body_run checksum Timestamp ToDatetime id_from_name
              cartridge h) as (bp & r & Hpack & HQ).
  destruct r as [l0|e].
  2: { destruct Hpackable as (idf & mfg & lu & key & Hp). exfalso.
       exact (HQ Hrange idf mfg lu key Hp). }
  destruct HQ as (Hl0 & idf & mfg & lu & kf & Hp & Hlayout).
  assert (Hpack' : pack checksum Timestamp ToDatetime id_from_name cartridge h
                   = (<[l0 := bp]> h, Ok l0))
    by (rewrite Hpack; subst l0; reflexivity).
  clear Hpack Hl0.
  pose proof (proj1 Hlayout) as Hlen.
  destruct (encrypt_run checksum crypto_encrypt machine_number eeprom_uid
              l0 bp (<[l0 := bp]> h)) as (image & r & Hrun & HQ);
    [apply lookup_insert_eq|].
  destruct (build_key_succeeds (slice 0x48 0x50 bp) machine_number eeprom_uid)
    as (key & Hkey & _); [rewrite length_slice; lia | done | done |].
  destruct r as [l1|e].
  2: { specialize (HQ ltac:(lia) Hrange). congruence. }
  destruct HQ as (-> & _ & key' & Hkey' & _ & Hc1 & Hc2 & Hhdr & Htok & Hq &
                  Hqtok & Hsame).
  rewrite Hkey in Hkey'. injection Hkey' as <-.
  assert (Hlen' : length image = 0x71%nat)
    by (destruct Hsame as [-> _]; done).
  assert (Hkeyi : build_key (slice 0x48 0x50 image) machine_number eeprom_uid
                  = Ok key).
  { rewrite (slice_same_outside transformed _ _ bp image Hsame); [done|].
    unfold transformed. lia. }
  exists l0, (<[l0 := image]> (<[l0 := bp]> h)). eexists. split.
  { unfold encode, mbind, M_bind. rewrite Hpack'. cbv beta iota.
    rewrite Hrun. reflexivity. }
  rewrite (decode_run checksum crypto_decrypt Timestamp FromDatetime
             name_from_id Hdl machine_number eeprom_uid l0 _ image key
             (lookup_insert_eq _ _ _) Hlen' Hkeyi).
  cbv zeta.
  rewrite Htok, le_int_le_bytes_small by (simpl; lia). rewrite Z.eqb_refl.
  pose proof (same_outside_header_decrypted crypto_decrypt key image Hdl)
    as Hs1.
  rewrite (slice_same_outside _ 88 96 _ _ Hs1) by (intros; lia).
  rewrite (slice_same_outside _ 96 98 _ _ Hs1) by (intros; lia).
  rewrite Hqtok, le_int_le_bytes_small by (simpl; lia). rewrite Z.eqb_refl.
  f_equal.
  apply (unpack_bytes_layout checksum Timestamp ToDatetime FromDatetime
           id_from_name name_from_id cartridge idf mfg lu kf); [|done|done].
  apply (layout_same_outside checksum cartridge idf mfg lu kf bp); [done|].
  by apply (decrypted_encrypted crypto_encrypt crypto_decrypt Hde Hel Hdl).
Qed.

Lemma sum16_uint16 bs : 0 <= Sample.sum16 bs <= 0xffff.
Proof. pose proof (sum16_range bs). lia. Qed.

Lemma sample_stored_exactly :
  stored_exactly id Sample.materials Sample.material_names Sample.cartridge.
Proof.
  unfold stored_exactly, is_float.
  cbn [serial_number initial_material_quantity current_material_quantity
       material_name manufacturing_lot manufacturing_date last_use_date
       key_fragment version signature Sample.cartridge id].
  change (2 ^ 64) with 18446744073709551616.
  split; [lia|]. split; [lia|]. split; [lia|].
  split.
  { exists 17. split; [reflexivity|]. split; [|reflexivity].
    change (2 ^ 53) with 9007199254740992. lia. }
  split; [vm_compute; lia|].
  split; [apply (bool_decide_unpack _); vm_compute; exact I|].
  split; [reflexivity|].
  split; [lia|].
  split; [reflexivity|]. split; [simpl; lia|].
  split; [reflexivity|]. split; [simpl; lia|].
  split.
  { exists [x01; x23; x45; x67; x89; xab; xcd; xef]. split; reflexivity. }
  split; reflexivity.
Qed.

Lemma decode_encode_round_trip_witness :
  ∃ l h1 h2,
    Sample.sample_encode Sample.cartridge ∅ = (h1, Ok l) ∧
    Sample.sample_decode l h1 = (h2, Ok Sample.cartridge).
Proof.
  exact (decode_encode_round_trip Sample.sum16 Sample.xor_cipher
           Sample.xor_cipher datetime id id Sample.materials
           Sample.material_names Sample.machine_number Sample.eeprom_uid
           Sample.cartridge ∅ xor_cipher_involutive xor_cipher_length
           xor_cipher_length
           sum16_uint16 eq_refl eq_refl sample_stored_exactly).
Defined.

(** * Further properties *)

(** ** More on the key derivation *)

Lemma index_Ok (b : list byte) i x : index b i = Ok x → b !! i = Some x.
Proof. unfold index. by destruct (b !! i); intros [=]; subst. Qed.

Lemma index_Raise (b : list byte) i e :
  index b i = Raise e → e = IndexError ∧ (length b ≤ i)%nat.
Proof.
  unfold index. destruct (b !! i) eqn:E; intros [=]; subst.
  split; [done|]. by apply lookup_ge_None.
Qed.

(** Case analysis on the first [index] of a [build_key] that is still to
    run. *)
Ltac key_step x H :=
  lazymatch goal with
  | |- context [index ?b ?i] =>
    destruct (index b i) as [x|?e] eqn:H
  end.

Lemma build_key_inv kf m d key :
  build_key kf m d = Ok key →
  ∃ k0 k1 k2 k3 k6 k7 m0 m1 m2 m3 m6 m7 d1 d2 d5 d6,
    kf !! 0%nat = Some k0 ∧ kf !! 1%nat = Some k1 ∧ kf !! 2%nat = Some k2 ∧
    kf !! 3%nat = Some k3 ∧ kf !! 6%nat = Some k6 ∧ kf !! 7%nat = Some k7 ∧
    m !! 0%nat = Some m0 ∧ m !! 1%nat = Some m1 ∧ m !! 2%nat = Some m2 ∧
    m !! 3%nat = Some m3 ∧ m !! 6%nat = Some m6 ∧ m !! 7%nat = Some m7 ∧
    d !! 1%nat = Some d1 ∧ d !! 2%nat = Some d2 ∧ d !! 5%nat = Some d5 ∧
    d !! 6%nat = Some d6 ∧
    key = map complement
            [k0; k2; d2; k6; m0; m2; d6; m6; m7; d1; m3; m1; k7; d5; k3; k1].
Proof.
  unfold build_key, mbind, result_mbind, result_bind.
  key_step k0 H0; [|discriminate]. key_step k2 H2; [|discriminate].
  key_step d2 G2; [|discriminate]. key_step k6 H6; [|discriminate].
  key_step m0 M0; [|discriminate]. key_step m2 M2; [|discriminate].
  key_step d6 G6; [|discriminate]. key_step m6 M6; [|discriminate].
  key_step m7 M7; [|discriminate]. key_step d1 G1; [|discriminate].
  key_step m3 M3; [|discriminate]. key_step m1 M1; [|discriminate].
  key_step k7 H7; [|discriminate]. key_step d5 G5; [|discriminate].
  key_step k3 H3; [|discriminate]. key_step k1 H1; [|discriminate].
  intros [= <-].
  exists k0, k1, k2, k3, k6, k7, m0, m1, m2, m3, m6, m7, d1, d2, d5, d6.
  repeat (split; [by apply index_Ok|]). reflexivity.
Qed.

Lemma build_key_raises kf m d e :
  build_key kf m d = Raise e →
  e = IndexError ∧
  ((length kf < 8)%nat ∨ (length m < 8)%nat ∨ (length d < 7)%nat).
Proof.
  unfold build_key, mbind, result_mbind, result_bind.
  repeat lazymatch goal with
  | |- context [index ?b ?i] =>
    let H := fresh "H" in
    destruct (index b i) as [?x|?e'] eqn:H;
    [| intros [= <-]; apply index_Raise in H as [-> H];
       split; [reflexivity | lia] ]
  end.
  discriminate.
Qed.

Lemma build_key_enough kf m d :
  (8 ≤ length kf)%nat → (8 ≤ length m)%nat → (7 ≤ length d)%nat →
  ∃ key, build_key kf m d = Ok key ∧ length key = 16%nat ∧
         build_key (take 8 kf) (take 8 m) (take 7 d) = Ok key.
Proof.
  intros Hk Hm Hd.
  do 8 (destruct kf as [|? kf]; [simpl in Hk; lia|]).
  do 8 (destruct m as [|? m]; [simpl in Hm; lia|]).
  do 7 (destruct d as [|? d]; [simpl in Hd; lia|]).
  eexists. repeat split; reflexivity.
Qed.

Lemma build_key_too_short kf m d :
  (length kf < 8)%nat ∨ (length m < 8)%nat ∨ (length d < 7)%nat →
  build_key kf m d = Raise IndexError.
Proof.
  intros Hshort. destruct (build_key kf m d) as [key|e] eqn:E.
  - apply build_key_inv in E
      as (k0 & k1 & k2 & k3 & k6 & k7 & m0 & m1 & m2 & m3 & m6 & m7 &
          d1 & d2 & d5 & d6 & _ & _ & _ & _ & _ & Hk7 & _ & _ & _ & _ & _ &
          Hm7 & _ & _ & _ & Hd6 & _).
    apply lookup_lt_Some in Hk7, Hm7, Hd6. lia.
  - apply build_key_raises in E as [-> _]. reflexivity.
Qed.

(** X1: [build_key] needs 8 bytes of key fragment and of machine number but
    only 7 of the EEPROM identifier, whose byte 7 it never reads; with less
    it raises [IndexError], with more it ignores the rest. *)
Theorem build_key_lengths (kf m d : list byte) :
  ((8 ≤ length kf)%nat ∧ (8 ≤ length m)%nat ∧ (7 ≤ length d)%nat →
   ∃ key, build_key kf m d = Ok key ∧ length key = 16%nat ∧
          build_key (take 8 kf) (take 8 m) (take 7 d) = Ok key) ∧
  ((length kf < 8)%nat ∨ (length m < 8)%nat ∨ (length d < 7)%nat →
   build_key kf m d = Raise IndexError).
Proof.
  split.
  - intros (Hk & Hm & Hd). by apply build_key_enough.
  - apply build_key_too_short.
Qed.

Lemma build_key_lengths_witness :
  ∃ key, build_key Sample.eeprom_uid Sample.machine_number
           [x11; x12; x13; x14; x15; x16; x17] = Ok key ∧
         length key = 16%nat.
Proof.
  destruct (proj1 (build_key_lengths Sample.eeprom_uid Sample.machine_number
                     [x11; x12; x13; x14; x15; x16; x17]))
    as (key & Hkey & Hlen & _); [simpl; lia|].
  exists key. split; assumption.
Defined.

Lemma complement_inj a b : complement a = complement b → a = b.
Proof.
  intros H. apply byte_to_Z_inj. apply (f_equal byte_to_Z) in H.
  rewrite !complement_spec in H. lia.
Qed.

(** X2: Two inputs that give the same key agree on every byte that
    [build_key] reads: the key determines those bytes. *)
Theorem build_key_injective (kf kf' m m' d d' key : list byte) :
  build_key kf m d = Ok key → build_key kf' m' d' = Ok key →
  agree_on [0; 1; 2; 3; 6; 7]%nat kf kf' ∧
  agree_on [0; 1; 2; 3; 6; 7]%nat m m' ∧
  agree_on [1; 2; 5; 6]%nat d d'.
Proof.
  intros H H'.
  apply build_key_inv in H
    as (k0 & k1 & k2 & k3 & k6 & k7 & m0 & m1 & m2 & m3 & m6 & m7 &
        d1 & d2 & d5 & d6 & K0 & K1 & K2 & K3 & K6 & K7 & M0 & M1 & M2 & M3 &
        M6 & M7 & D1 & D2 & D5 & D6 & ->).
  apply build_key_inv in H'
    as (k0' & k1' & k2' & k3' & k6' & k7' & m0' & m1' & m2' & m3' & m6' & m7' &
        d1' & d2' & d5' & d6' & K0' & K1' & K2' & K3' & K6' & K7' & M0' & M1' &
        M2' & M3' & M6' & M7' & D1' & D2' & D5' & D6' & Heq).
  cbn [map] in Heq. injection Heq as E0 E1 E2 E3 E4 E5 E6 E7 E8 E9 E10 E11
                                    E12 E13 E14 E15.
  apply complement_inj in E0, E1, E2, E3, E4, E5, E6, E7, E8, E9, E10, E11,
                          E12, E13, E14, E15.
  subst. repeat split; intros i Hi;
    repeat (apply elem_of_cons in Hi as [->|Hi]; [congruence|]);
    by apply elem_of_nil in Hi.
Qed.

Lemma build_key_injective_witness :
  agree_on [1; 2; 5; 6]%nat Sample.eeprom_uid
           [xcc; x12; x13; xdd; xee; x16; x17; xff].
Proof.
  refine (proj2 (proj2 (build_key_injective
    [x00; x01; x02; x03; x04; x05; x06; x07]
    [x00; x01; x02; x03; xff; xff; x06; x07]
    Sample.machine_number [x01; x02; x03; x04; xaa; xbb; x07; x08]
    Sample.eeprom_uid [xcc; x12; x13; xdd; xee; x16; x17; xff]
    _ _ _))); reflexivity.
Defined.

(** ** More on [pack] and [unpack] *)

(** X3: [pack] succeeds exactly on the records that are [packable] (the
    checksum returning 16-bit values): a material the table knows, whose
    identifier converts to a float, a version on 16 bits, dates that
    ["<HBBBBH"] accepts and a key fragment in hexadecimal. *)
Theorem pack_succeeds_iff
    (checksum : list byte → Z) (Timestamp : Type)
    (ToDatetime : Timestamp → datetime) (id_from_name : string → option Z)
    (cartridge : Cartridge Timestamp) (h : heap) :
  (∀ bs, 0 <= checksum bs <= 0xffff) →
  (∃ h' l, pack checksum Timestamp ToDatetime id_from_name cartridge h
             = (h', Ok l)) ↔
  (∃ idf mfg lu key,
     packable ToDatetime id_from_name cartridge idf mfg lu key).
Proof.
  intros Hrange.
  destruct (pack_body_run checksum Timestamp ToDatetime id_from_name
              cartridge h) as (b & r & Hrun & HQ).
  rewrite Hrun. split.
  - intros (h' & l & [= <- ->]).
    destruct HQ as (_ & idf & mfg & lu & key & Hp & _). eauto.
  - intros (idf & mfg & lu & key & Hp). destruct r as [l|e]; [eauto|].
    exfalso. exact (HQ Hrange idf mfg lu key Hp).
Qed.

Lemma pack_succeeds_iff_witness :
  ∃ h' l, Sample.sample_pack Sample.cartridge ∅ = (h', Ok l).
Proof.
  apply (pack_succeeds_iff Sample.sum16 datetime id Sample.materials
           Sample.cartridge ∅ sum16_uint16).
  exists 0x4031000000000000,
         [x65; x00; x01; x02; x03; x04; x05; x00],
         [x66; x00; x06; x07; x08; x09; x0a; x00],
         [x01; x23; x45; x67; x89; xab; xcd; xef].
  split; [exists 17; split; reflexivity|].
  split; [simpl; lia|]. split; [reflexivity|]. split; reflexivity.
Defined.

(** X4: A successful [pack] returns a reference that no earlier object had, to
    a buffer of exactly 113 bytes that holds every field at its offset and
    the checksums of the header, key and quantity bytes it then holds; no
    other object changes. *)
Theorem pack_layout
    (checksum : list byte → Z) (Timestamp : Type)
    (ToDatetime : Timestamp → datetime) (id_from_name : string → option Z)
    (cartridge : Cartridge Timestamp) (h h' : heap) (l : loc) :
  pack checksum Timestamp ToDatetime id_from_name cartridge h = (h', Ok l) →
  h !! l = None ∧
  ∃ b, h' = <[l := b]> h ∧ length b = 0x71%nat ∧
    ∃ idf mfg lu key,
      packable ToDatetime id_from_name cartridge idf mfg lu key ∧
      layout checksum cartridge idf mfg lu key b.
Proof.
  intros Hrun.
  destruct (pack_body_run checksum Timestamp ToDatetime id_from_name
              cartridge h) as (b & r & Hrun' & HQ).
  rewrite Hrun in Hrun'. injection Hrun' as -> <-.
  destruct HQ as (-> & idf & mfg & lu & key & Hp & Hlayout).
  split.
  { apply not_elem_of_dom. apply is_fresh. }
  exists b. split; [done|]. split; [apply Hlayout|]. eauto 10.
Qed.

Lemma pack_layout_witness :
  ∃ b, (Sample.sample_pack Sample.cartridge ∅).1 = <[1%positive := b]> ∅ ∧
       length b = 0x71%nat.
Proof.
  destruct (pack_layout Sample.sum16 datetime id Sample.materials
              Sample.cartridge ∅ (Sample.sample_pack Sample.cartridge ∅).1
              1%positive) as (_ & b & Hb & Hlen & _);
    [vm_compute; reflexivity|].
  exists b. split; assumption.
Defined.

(** X5: [unpack] inverts [pack]: on a record that the image holds without loss,
    unpacking the buffer that [pack] made returns the record, its dates cut
    to the second, and leaves the buffer as it was. *)
Theorem unpack_pack
    (checksum : list byte → Z) (Timestamp : Type)
    (ToDatetime : Timestamp → datetime) (FromDatetime : datetime → Timestamp)
    (id_from_name : string → option Z) (name_from_id : Z → option string)
    (cartridge : Cartridge Timestamp) (h : heap) :
  (∀ bs, 0 <= checksum bs <= 0xffff) →
  stored_exactly ToDatetime id_from_name name_from_id cartridge →
  ∃ l h',
    pack checksum Timestamp ToDatetime id_from_name cartridge h = (h', Ok l) ∧
    unpack checksum Timestamp FromDatetime name_from_id l h'
      = (h', Ok (truncate_dates ToDatetime FromDatetime cartridge)).
Proof.
  intros Hrange Hc.
  destruct (pack_body_run checksum Timestamp ToDatetime id_from_name
              cartridge h) as (b & r & Hrun & HQ).
  destruct r as [l|e].
  2: { exfalso.
       destruct Hc as (_ & _ & _ & (id & Hid & Hidr & _) & _ & _ & _ & Hv &
                       Hmv & Hmy & Hlv & Hly & (raw & _ & Hraw) & _).
       destruct (int_of_float_of_int id Hidr) as (x & Hx & _).
       destruct (pack_datetime_valid _ Hmv Hmy) as (mfg & Hmfg).
       destruct (pack_datetime_valid _ Hlv Hly) as (lu & Hlu).
       apply (HQ Hrange x mfg lu raw). split.
       { exists id. split; [|done]. unfold get_id_from_name. by rewrite Hid. }
       split; [done|]. split; [done|]. split; [done|].
       rewrite Hraw. apply fromhex_hex. }
  destruct HQ as (_ & idf & mfg & lu & key & Hp & Hlayout).
  exists l. eexists. split; [exact Hrun|].
  unfold unpack, load, lift, mbind, M_bind.
  destruct (decide (l = fresh (dom h))) as [->|Hne].
  - rewrite lookup_insert_eq. f_equal.
    by apply (unpack_bytes_layout checksum Timestamp ToDatetime FromDatetime
                id_from_name name_from_id cartridge idf mfg lu key).
  - exfalso. apply Hne.
    destruct (pack_body_run checksum Timestamp ToDatetime id_from_name
                cartridge h) as (b2 & r2 & Hrun2 & HQ2).
    rewrite Hrun in Hrun2. injection Hrun2 as _ <-. apply HQ2.
Qed.

Lemma unpack_pack_witness :
  ∃ l h',
    Sample.sample_pack Sample.cartridge ∅ = (h', Ok l) ∧
    Sample.sample_unpack l h' = (h', Ok Sample.cartridge).
Proof.
  exact (unpack_pack Sample.sum16 datetime id id Sample.materials
           Sample.material_names Sample.cartridge ∅ sum16_uint16
           sample_stored_exactly).
Defined.

(** ** More on [encrypt], [decrypt], [encode] and [decode] *)



(** X7: [encrypt] is not all-or-nothing: on a buffer that holds the key
    fragment but stops before byte 0x62, it raises [struct.error] only after
    it has replaced the header by its ciphertext and written the token at
    0x46. *)
Theorem encrypt_short_buffer
    (checksum : list byte → Z)
    (crypto_encrypt : list byte → list byte → list byte)
    (machine_number eeprom_uid : list byte) (l : loc) (h : heap)
    (b key : list byte) :
  h !! l = Some b → (0x50 ≤ length b < 0x62)%nat →
  build_key (slice 0x48 0x50 b) machine_number eeprom_uid = Ok key →
  (∀ bs, 0 <= checksum bs <= 0xffff) →
  ∃ b',
    encrypt checksum crypto_encrypt machine_number eeprom_uid l h
      = (<[l := b']> h, Raise StructError) ∧
    length b' = length b ∧
    slice 0x00 0x40 b' = pack_s 64 (crypto_encrypt key (slice 0x00 0x40 b)) ∧
    slice 0x46 0x48 b' = le_bytes 2 (checksum (slice 0x00 0x40 b')).
Proof.
  intros Hl Hlen Hkey Hrange.
  cut (wp l (encrypt checksum crypto_encrypt machine_number eeprom_uid l)
         (λ b' r, r = Raise StructError ∧ length b' = length b ∧
            slice 0x00 0x40 b'
              = pack_s 64 (crypto_encrypt key (slice 0x00 0x40 b)) ∧
            slice 0x46 0x48 b' = le_bytes 2 (checksum (slice 0x00 0x40 b')))
         b).
  { intros Hwp. destruct (Hwp h Hl) as (b' & r & Hrun & -> & HQ). eauto. }
  unfold encrypt. wp_steps. rewrite Hkey.
  wp_steps. apply wp_pack_into; [intros Hfit1|].
  2: { intros Hn. exfalso. apply Hn. len. }
  set (b1 := overwrite 0 _ b) in *.
  pose proof (length_overwrite _ _ _ Hfit1) as Hl1. fold b1 in Hl1.
  wp_steps. case_result crc Hcrc.
  2: { apply pack_H_Raise in Hcrc. specialize (Hrange (slice 0 64 b1)). lia. }
  apply pack_H_Ok in Hcrc as [-> Hcrc].
  wp_steps. apply wp_pack_into; [intros Hfit2|].
  2: { intros Hn. exfalso. apply Hn. len. }
  set (b2 := overwrite 70 _ b1) in *.
  pose proof (length_overwrite _ _ _ Hfit2) as Hl2. fold b2 in Hl2.
  rewrite ?length_pack_s, ?length_le_bytes in *.
  assert (H02 : slice 0 64 b2 = slice 0 64 b1) by slice_chain.
  assert (Hh2 : slice 0 64 b2
                = pack_s 64 (crypto_encrypt key (slice 0 64 b)))
    by slice_chain.
  assert (Ht2 : slice 70 72 b2 = le_bytes 2 (checksum (slice 0 64 b2)))
    by (rewrite H02; slice_chain).
  wp_steps. apply wp_pack_into; [intros Hfit3|].
  2: { intros _. split; [done|]. split; [lia|]. done. }
  set (b3 := overwrite 88 _ b2) in *.
  pose proof (length_overwrite _ _ _ Hfit3) as Hl3. fold b3 in Hl3.
  rewrite ?length_pack_s in *.
  wp_steps. case_result crc' Hcrc'.
  2: { apply pack_H_Raise in Hcrc'. specialize (Hrange (slice 88 96 b3)). lia. }
  apply pack_H_Ok in Hcrc' as [-> Hcrc'].
  wp_steps. apply wp_pack_into; [intros Hfit4|].
  { exfalso. rewrite length_le_bytes in Hfit4. lia. }
  intros _.
  assert (H03 : slice 0 64 b3 = slice 0 64 b2) by slice_chain.
  split; [done|]. split; [lia|]. rewrite H03. split; [done|].
  rewrite <- Ht2. slice_chain.
Qed.

Lemma encrypt_short_buffer_witness :
  ∃ b',
    Sample.sample_encrypt 1%positive {[1%positive := take 0x50 Sample.packed]}
      = (<[1%positive := b']> {[1%positive := take 0x50 Sample.packed]},
         Raise StructError) ∧
    length b' = 0x50%nat.
Proof.
  destruct (encrypt_short_buffer Sample.sum16 Sample.xor_cipher
              Sample.machine_number Sample.eeprom_uid 1%positive
              {[1%positive := take 0x50 Sample.packed]}
              (take 0x50 Sample.packed)
              (map complement
                 [x01; x45; x13; xcd; x01; x03; x17; x07; x08; x12; x04; x02;
                  xef; x16; x67; x23]))
    as (b' & Hrun & Hlen & _);
    [ vm_compute; reflexivity | vm_compute; lia | vm_compute; reflexivity
    | apply sum16_uint16 | ].
  exists b'. split; [exact Hrun | exact Hlen].
Defined.

(** X8: A buffer that stops before byte 0x50 cannot give the 8 bytes of key
    fragment: [encrypt], [decrypt] and [decode] raise [IndexError] on it and
    leave it untouched. *)
Theorem short_buffer_is_refused
    (checksum : list byte → Z)
    (crypto_encrypt crypto_decrypt : list byte → list byte → list byte)
    (Timestamp : Type) (FromDatetime : datetime → Timestamp)
    (name_from_id : Z → option string)
    (machine_number eeprom_uid : list byte) (l : loc) (h : heap)
    (b : list byte) :
  h !! l = Some b → (length b < 0x50)%nat →
  encrypt checksum crypto_encrypt machine_number eeprom_uid l h
    = (h, Raise IndexError) ∧
  decrypt checksum crypto_decrypt machine_number eeprom_uid l h
    = (h, Raise IndexError) ∧
  decode checksum crypto_decrypt Timestamp FromDatetime name_from_id
         machine_number eeprom_uid l h
    = (h, Raise IndexError).
Proof.
  intros Hl Hlen.
  assert (Hkey : build_key (slice 0x48 0x50 b) machine_number eeprom_uid
                 = Raise IndexError).
  { apply build_key_too_short. left. rewrite length_slice. lia. }
  assert (Hdec : decrypt checksum crypto_decrypt machine_number eeprom_uid l h
                 = (h, Raise IndexError)).
  { unfold decrypt, get_slice, load, lift, mbind, M_bind. rewrite Hl.
    unfold mret, M_ret. by rewrite Hkey. }
  split; [|split; [done|]].
  - unfold encrypt, get_slice, load, lift, mbind, M_bind. rewrite Hl.
    unfold mret, M_ret. by rewrite Hkey.
  - unfold decode, mbind at 1, M_bind at 1. by rewrite Hdec.
Qed.

Lemma short_buffer_is_refused_witness :
  Sample.sample_decode 1%positive {[1%positive := take 0x4f Sample.crypted]}
    = ({[1%positive := take 0x4f Sample.crypted]}, Raise IndexError).
Proof.
  refine (proj2 (proj2 (short_buffer_is_refused Sample.sum16 Sample.xor_cipher
            Sample.xor_cipher datetime id Sample.material_names
            Sample.machine_number Sample.eeprom_uid 1%positive
            {[1%positive := take 0x4f Sample.crypted]}
            (take 0x4f Sample.crypted) _ _)));
    [vm_compute; reflexivity | vm_compute; lia].
Defined.

(** X9: [unpack] makes a fourth check, after the two token checks of [decrypt]
    and its own check of the checksum at 0x40: the checksum at 0x62 must be
    that of the decrypted quantity bytes, or [decode] raises; a returned
    record implies that it matched. *)
Theorem quantity_checksum_is_checked
    (checksum : list byte → Z)
    (crypto_decrypt : list byte → list byte → list byte)
    (Timestamp : Type) (FromDatetime : datetime → Timestamp)
    (name_from_id : Z → option string)
    (machine_number eeprom_uid : list byte) (l : loc) (h : heap)
    (b key : list byte) :
  (∀ key bs, length (crypto_decrypt key bs) = length bs) →
  h !! l = Some b → length b = 0x71%nat →
  build_key (slice 0x48 0x50 b) machine_number eeprom_uid = Ok key →
  let decoded := decode checksum crypto_decrypt Timestamp FromDatetime
                        name_from_id machine_number eeprom_uid l h in
  let b2 := decrypted crypto_decrypt key b in
  (header_token_ok checksum b →
   quantity_token_ok checksum (header_decrypted crypto_decrypt key b) →
   content_checksum_ok checksum b2 →
   checksum (slice 0x58 0x60 b2) ≠ le_int (slice 0x62 0x64 b2) →
   decoded = (<[l := b2]> h, Raise InvalidQuantityChecksum)) ∧
  (∀ h' cartridge, decoded = (h', Ok cartridge) →
   checksum (slice 0x58 0x60 b2) = le_int (slice 0x62 0x64 b2)).
Proof.
  intros Hdl Hl Hlen Hkey decoded b2.
  pose proof (decode_run checksum crypto_decrypt Timestamp FromDatetime
                name_from_id Hdl machine_number eeprom_uid l h b key
                Hl Hlen Hkey) as Hrun.
  cbv zeta in Hrun. fold b2 decoded in Hrun.
  assert (Hb2 : length b2 = 0x71%nat)
    by (unfold b2; by rewrite length_decrypted).
  assert (Hunpack :
    checksum (slice 0 64 b2) = le_int (slice 64 66 b2) →
    checksum (slice 88 96 b2) ≠ le_int (slice 98 100 b2) →
    unpack_bytes checksum Timestamp FromDatetime name_from_id b2
    = Raise InvalidQuantityChecksum).
  { intros H1 H2. unfold unpack_bytes, mbind, result_mbind, result_bind.
    rewrite (unpack_H_slice 0x40), (unpack_H_slice 0x62) by lia.
    cbn [Nat.add]. rewrite H1, Z.eqb_refl.
    apply Z.eqb_neq in H2. by rewrite H2. }
  split.
  - unfold header_token_ok, quantity_token_ok, content_checksum_ok.
    intros H1 H2 H3 H4. rewrite Hrun.
    apply Z.eqb_eq in H1, H2. rewrite H1, H2. f_equal. by apply Hunpack.
  - intros h' c. rewrite Hrun.
    destruct (_ =? _); [|intros [=]].
    destruct (_ =? _); [|intros [=]].
    intros [= _ Hc].
    destruct (decide (checksum (slice 88 96 b2) = le_int (slice 98 100 b2)))
      as [|Hne]; [done|].
    exfalso.
    unfold unpack_bytes, mbind, result_mbind, result_bind in Hc.
    rewrite (unpack_H_slice 0x40), (unpack_H_slice 0x62) in Hc by lia.
    cbn [Nat.add] in Hc.
    destruct (checksum (slice 0 64 b2) =? _); [|discriminate Hc].
    apply Z.eqb_neq in Hne. rewrite Hne in Hc. discriminate Hc.
Qed.

Lemma quantity_checksum_is_checked_witness :
  Sample.sum16
    (slice 0x58 0x60
       (decrypted Sample.xor_cipher
          (map complement
             [x01; x45; x13; xcd; x01; x03; x17; x07; x08; x12; x04; x02;
              xef; x16; x67; x23]) Sample.crypted))
  = le_int
      (slice 0x62 0x64
         (decrypted Sample.xor_cipher
            (map complement
               [x01; x45; x13; xcd; x01; x03; x17; x07; x08; x12; x04; x02;
                xef; x16; x67; x23]) Sample.crypted)).
Proof.
  refine (proj2 (quantity_checksum_is_checked Sample.sum16 Sample.xor_cipher
            datetime id Sample.material_names Sample.machine_number
            Sample.eeprom_uid 1%positive {[1%positive := Sample.crypted]}
            Sample.crypted _ xor_cipher_length _ _ _)
            (Sample.sample_decode 1%positive
               {[1%positive := Sample.crypted]}).1
            Sample.cartridge _);
    vm_compute; reflexivity.
Defined.

(** X10: The image that [encode] returns is the packed buffer itself, encrypted
    in place: a new object of 113 bytes that differs from the packed bytes
    only in the regions [encrypt] rewrites; so it still shows, unencrypted,
    the checksum of the plaintext header at 0x40, the key fragment at 0x48
    and the checksum of the plaintext quantity at 0x62. *)
Theorem encode_image
    (checksum : list byte → Z)
    (crypto_encrypt : list byte → list byte → list byte)
    (Timestamp : Type) (ToDatetime : Timestamp → datetime)
    (id_from_name : string → option Z)
    (machine_number eeprom_uid : list byte) (cartridge : Cartridge Timestamp)
    (h h' : heap) (l : loc) :
  encode checksum crypto_encrypt Timestamp ToDatetime id_from_name
         machine_number eeprom_uid cartridge h = (h', Ok l) →
  h !! l = None ∧
  ∃ packed image key,
    pack checksum Timestamp ToDatetime id_from_name cartridge h
      = (<[l := packed]> h, Ok l) ∧
    h' = <[l := image]> h ∧ length image = 0x71%nat ∧
    same_outside transformed packed image ∧
    fromhex (encode_utf8 (key_fragment cartridge)) = Ok key ∧
    slice 0x40 0x42 image = le_bytes 2 (checksum (slice 0x00 0x40 packed)) ∧
    slice 0x48 0x50 image = pack_s 8 key ∧
    slice 0x62 0x64 image
      = le_bytes 2 (checksum (pack_d (current_material_quantity cartridge))).
Proof.
  intros Henc. unfold encode, mbind, M_bind in Henc.
  destruct (pack_body_run checksum Timestamp ToDatetime id_from_name
              cartridge h) as (packed & r & Hpack & HQ).
  rewrite Hpack in Henc. rewrite Hpack.
  destruct r as [l0|e]; [|discriminate Henc].
  destruct HQ as (-> & idf & mfg & lu & key & Hp & Hlayout).
  assert (Hlen : length packed = 0x71%nat) by apply Hlayout.
  assert (Hfresh : h !! fresh (dom h) = None)
    by apply not_elem_of_dom, is_fresh.
  set (l0 := fresh (dom h)) in *.
  destruct (encrypt_run checksum crypto_encrypt machine_number eeprom_uid
              l0 packed (<[l0 := packed]> h)) as (image & r & Hrun & HQ);
    [apply lookup_insert_eq|].
  rewrite Hrun in Henc. destruct r as [l1|e]; [|discriminate Henc].
  unfold mret, M_ret in Henc. injection Henc as <- <-.
  destruct HQ as (-> & _ & _ & _ & _ & _ & _ & _ & _ & _ & _ & Hsame).
  split; [done|]. exists packed, image, key.
  split; [done|]. split; [by rewrite insert_insert_eq|].
  split; [destruct Hsame as [-> _]; done|]. split; [done|].
  split; [apply Hp|].
  destruct Hlayout as (_ & _ & _ & _ & _ & _ & _ & _ & Hcrc & Hkey & _ & Hcur &
                       Hqcrc & _).
  rewrite !(slice_same_outside transformed _ _ packed image Hsame)
    by (intros; unfold transformed; lia).
  rewrite Hcrc, Hkey, Hqcrc, Hcur. done.
Qed.

Lemma encode_image_witness :
  ∃ packed image key,
    Sample.sample_pack Sample.cartridge ∅
      = (<[1%positive := packed]> ∅, Ok 1%positive) ∧
    (Sample.sample_encode Sample.cartridge ∅).1 = <[1%positive := image]> ∅ ∧
    slice 0x48 0x50 image = pack_s 8 key.
Proof.
  destruct (encode_image Sample.sum16 Sample.xor_cipher datetime id
              Sample.materials Sample.machine_number Sample.eeprom_uid
              Sample.cartridge ∅ (Sample.sample_encode Sample.cartridge ∅).1
              1%positive)
    as (_ & packed & image & key & Hpack & Himage & _ & _ & _ & _ & Hkey & _);
    [vm_compute; reflexivity|].
  exists packed, image, key. repeat split; assumption.
Defined.

(** ** What [unpack] returns *)

Lemma unpack_from_Ok n off (b x : list byte) :
  unpack_from n off b = Ok x → x = slice off (off + n) b ∧ length x = n.
Proof.
  unfold unpack_from. case_decide; intros [= <-].
  split; [done|]. rewrite length_slice. lia.
Qed.

Lemma split_nul_length bs : (length (split_nul bs) ≤ length bs)%nat.
Proof.
  induction bs as [|b bs IH]; [done|]. cbn [split_nul].
  destruct (Byte.eqb b x00); simpl; lia.
Qed.

Lemma split_nul_no_nul bs : x00 ∉ split_nul bs.
Proof.
  induction bs as [|b bs IH]; [by apply not_elem_of_nil|]. cbn [split_nul].
  destruct (Byte.eqb b x00) eqn:E; [by apply not_elem_of_nil|].
  apply not_elem_of_cons. split; [|done].
  intros <-. by rewrite Byte.byte_dec_lb in E.
Qed.

Lemma length_hex bs : length (hex bs) = (2 * length bs)%nat.
Proof. induction bs as [|b bs IH]; [done|]. cbn [hex flat_map app length] in *.
  fold (hex bs). rewrite IH. lia. Qed.

Lemma decode_utf8_Ok bs s : decode_utf8 bs = Ok s → encode_utf8 s = bs.
Proof.
  unfold decode_utf8. destruct (utf8_valid bs); intros [= <-].
  apply String.list_byte_of_string_of_list_byte.
Qed.

Lemma le_int_float bs : length bs = 8%nat → is_float (le_int bs).
Proof.
  intros H. pose proof (le_int_range bs) as Hr. rewrite H in Hr. exact Hr.
Qed.

(** X11: Whatever bytes it is given, a record that [unpack] returns has a
    signature of exactly 9 bytes, a key fragment of exactly 16 characters, a
    lot of at most 20 bytes without zero byte, a version on 16 bits and
    floats that are bit patterns. *)
Theorem unpack_result_shape
    (checksum : list byte → Z) (Timestamp : Type)
    (FromDatetime : datetime → Timestamp) (name_from_id : Z → option string)
    (b : list byte) (c : Cartridge Timestamp) :
  unpack_bytes checksum Timestamp FromDatetime name_from_id b = Ok c →
  length (encode_utf8 (signature c)) = 9%nat ∧
  length (encode_utf8 (key_fragment c)) = 16%nat ∧
  (length (encode_utf8 (manufacturing_lot c)) ≤ 20)%nat ∧
  (x00 ∉ encode_utf8 (manufacturing_lot c)) ∧
  0 <= version c <= 0xffff ∧
  is_float (serial_number c) ∧
  is_float (initial_material_quantity c) ∧
  is_float (current_material_quantity c).
Proof.
  unfold unpack_bytes, mbind, result_mbind, result_bind.
  repeat lazymatch goal with
  | |- match ?r with Ok _ => _ | Raise _ => _ end = Ok _ → _ =>
    let H := fresh "H" in
    destruct r eqn:H; [|discriminate]
  end.
  intros [= <-].
  cbn [signature key_fragment manufacturing_lot version serial_number
       initial_material_quantity current_material_quantity].
  repeat match goal with
  | H : unpack_from _ _ _ = Ok _ |- _ => apply unpack_from_Ok in H as [_ H]
  | H : decode_utf8 _ = Ok _ |- _ => apply decode_utf8_Ok in H
  end.
  repeat match goal with
  | H : encode_utf8 _ = _ |- _ => rewrite H; clear H
  end.
  unfold encode_utf8. rewrite String.list_byte_of_string_of_list_byte.
  split; [done|]. split; [rewrite length_hex; lia|].
  split.
  { etrans; [apply split_nul_length|]. lia. }
  split; [apply split_nul_no_nul|].
  split.
  { match goal with |- _ <= le_int ?v <= _ =>
      pose proof (le_int_range v) as Hr end.
    match goal with H : length ?v = 2%nat |- _ <= le_int ?v <= _ =>
      rewrite H in Hr end.
    change (256 ^ Z.of_nat 2) with 65536 in Hr. lia. }
  repeat split; by apply le_int_float.
Qed.

Lemma unpack_result_shape_witness :
  length (encode_utf8 (signature Sample.cartridge)) = 9%nat.
Proof.
  refine (proj1 (unpack_result_shape Sample.sum16 datetime id
            Sample.material_names Sample.packed Sample.cartridge _)).
  vm_compute; reflexivity.
Defined.

(** ** Conversions used on the way *)

(** X12: A material identifier of magnitude below 2^53 survives its trip through
    the 8 bytes of a double: ["<d"] converts it exactly and [int] of the
    unpacked float gives it back. *)
Theorem material_id_survives (id : Z) :
  - 2 ^ 53 < id < 2 ^ 53 →
  ∃ idf, float_of_int id = Ok idf ∧
         int_of_float (le_int (pack_d idf)) = Ok id.
Proof.
  intros H. destruct (int_of_float_of_int id H) as (x & Hx & Hr & Hi).
  exists x. split; [done|]. by rewrite le_int_pack_d.
Qed.

Lemma material_id_survives_witness :
  ∃ idf, float_of_int 17 = Ok idf ∧
         int_of_float (le_int (pack_d idf)) = Ok 17.
Proof.
  apply material_id_survives. change (2 ^ 53) with 9007199254740992. lia.
Defined.

Lemma fromhex_app_hex raw rest :
  fromhex (hex raw ++ rest) = (bs ← fromhex rest; mret (raw ++ bs)).
Proof.
  induction raw as [|b raw IH].
  - simpl. by destruct (fromhex rest).
  - change (hex (b :: raw) ++ rest)
      with (hex_digit (byte_to_Z b / 16) :: hex_digit (byte_to_Z b mod 16)
            :: (hex raw ++ rest)).
    transitivity (bs ← fromhex (hex raw ++ rest); mret (b :: bs)).
    + generalize (hex raw ++ rest). intros tl. destruct b; reflexivity.
    + rewrite IH. by destruct (fromhex rest).
Qed.

(** X13: The text that [bytes.hex] gives for some bytes is read back by
    [bytearray.fromhex] as the same bytes, also when a space separates two
    groups of them. *)
Theorem hex_round_trip (raw raw' : list byte) :
  fromhex (hex raw) = Ok raw ∧
  fromhex (hex raw ++ x20 :: hex raw') = Ok (raw ++ raw').
Proof.
  split; [apply fromhex_hex|].
  rewrite fromhex_app_hex.
  change (fromhex (x20 :: hex raw')) with (fromhex (hex raw')).
  by rewrite fromhex_hex.
Qed.

(** ** Dates and versions that do not fit *)

Lemma pack_H_Raise_StructError v e : pack_H v = Raise e → e = StructError.
Proof.
  unfold pack_H. by destruct ((0 <=? v) && (v <=? 0xffff)); intros [=].
Qed.

Lemma pack_B_Raise_StructError v e : pack_B v = Raise e → e = StructError.
Proof.
  unfold pack_B. by destruct ((0 <=? v) && (v <=? 0xff)); intros [=].
Qed.

Lemma pack_datetime_Raise dt e : pack_datetime dt = Raise e → e = StructError.
Proof.
  unfold pack_datetime, mbind, result_mbind, result_bind.
  repeat lazymatch goal with
  | |- match ?r with Ok _ => _ | Raise _ => _ end = Raise _ → _ =>
    let H := fresh "H" in
    destruct r eqn:H;
    [| intros [= <-];
       first [ by apply pack_H_Raise_StructError in H
             | by apply pack_B_Raise_StructError in H ] ]
  end.
  discriminate.
Qed.

(** X14: The six date fields survive ["<HBBBBH"] and come back as a [datetime]
    without microseconds; a date before 1900 cannot be written at all. *)
Theorem date_fields (dt : datetime) :
  (valid_datetime dt = true → 1900 <= year dt →
   ∃ bs, pack_datetime dt = Ok bs ∧ length bs = 8%nat ∧
         unpack_datetime bs = Ok (drop_microsecond dt)) ∧
  (year dt < 1900 → pack_datetime dt = Raise StructError).
Proof.
  split.
  - intros Hv Hy. destruct (pack_datetime_valid dt Hv Hy) as (bs & Hbs).
    exists bs. split; [done|]. split; [by apply pack_datetime_length in Hbs|].
    by apply unpack_datetime_pack_datetime.
  - intros Hy. unfold pack_datetime, pack_H.
    destruct (Z.leb_spec 0 (year dt - 1900)); [lia | reflexivity].
Qed.

Lemma date_fields_witness :
  ∃ bs, pack_datetime (mk_datetime 2001 1 2 3 4 5 678) = Ok bs ∧
        unpack_datetime bs = Ok (mk_datetime 2001 1 2 3 4 5 0).
Proof.
  destruct (proj1 (date_fields (mk_datetime 2001 1 2 3 4 5 678)))
    as (bs & Hbs & _ & Hun); [reflexivity | simpl; lia |].
  exists bs. split; assumption.
Defined.

(** X15: A record of a known material whose version does not fit 16 bits, or one
    of whose dates lies before 1900, makes [pack] raise [struct.error]. *)
Theorem pack_refuses_what_does_not_fit
    (checksum : list byte → Z) (Timestamp : Type)
    (ToDatetime : Timestamp → datetime) (id_from_name : string → option Z)
    (cartridge : Cartridge Timestamp) (h : heap) (id idf : Z) :
  id_from_name (material_name cartridge) = Some id →
  float_of_int id = Ok idf →
  ¬ (0 <= version cartridge <= 0xffff) ∨
  year (ToDatetime (manufacturing_date cartridge)) < 1900 ∨
  year (ToDatetime (last_use_date cartridge)) < 1900 →
  (pack checksum Timestamp ToDatetime id_from_name cartridge h).2
    = Raise StructError.
Proof.
  intros Hid Hidf Hbad.
  cut (∃ b' r, pack checksum Timestamp ToDatetime id_from_name cartridge h
                 = (<[fresh (dom h) := b']> h, r) ∧ r = Raise StructError).
  { by intros (b' & r & -> & ->). }
  unfold pack.
  apply (wp_new_bytearray (A := loc) 0x71 _
    (λ _ _ (r : result loc), r = Raise StructError)).
  intros eeprom. cbv beta.
  set (b0 := replicate 113 x00).
  assert (Hl0 : length b0 = 113%nat) by apply length_replicate.
  wp_steps. wp_write. wp_steps.
  unfold get_id_from_name. rewrite Hid. wp_steps. rewrite Hidf.
  wp_steps. wp_write. wp_steps. wp_write. wp_steps.
  case_result v Hv; [|by apply pack_H_Raise_StructError in Hv; subst].
  apply pack_H_Ok in Hv as [-> Hver].
  wp_steps. wp_write. wp_steps.
  case_result mfg Hmfg; [|by apply pack_datetime_Raise in Hmfg; subst].
  pose proof (pack_datetime_length _ _ Hmfg) as Hmfg_len.
  apply pack_datetime_Ok in Hmfg as (_ & Hmy & _).
  wp_steps. wp_write. wp_steps.
  case_result lu Hlu; [|by apply pack_datetime_Raise in Hlu; subst].
  apply pack_datetime_Ok in Hlu as (_ & Hly & _).
  exfalso. destruct Hbad as [Hbad | [Hbad | Hbad]]; [by apply Hbad | lia | lia].
Qed.

Lemma pack_refuses_what_does_not_fit_witness :
  (Sample.sample_pack
     (mk_Cartridge 0 "ABS"%string ""%string (mk_datetime 1899 12 31 0 0 0 0)
        (mk_datetime 2001 1 1 0 0 0 0) 0 0 "0123456789abcdef"%string 1
        "STRATASYS"%string) ∅).2
    = Raise StructError.
Proof.
  apply (pack_refuses_what_does_not_fit Sample.sum16 datetime id
           Sample.materials _ ∅ 0 0); [reflexivity | reflexivity |].
  right. left. simpl. lia.
Defined.

(** ** Decoding under other identifiers *)

(** X16: The two token checks of [decrypt] read ciphertext only: on an image made
    by [encode], [decode] under any pair of 8-byte identifiers passes them
    and rewrites the caller's image with its decryption under the key of
    those identifiers, whatever [unpack] then answers. *)
Theorem token_checks_ignore_identifiers
    (checksum : list byte → Z)
    (crypto_encrypt crypto_decrypt : list byte → list byte → list byte)
    (Timestamp : Type) (ToDatetime : Timestamp → datetime)
    (FromDatetime : datetime → Timestamp)
    (id_from_name : string → option Z) (name_from_id : Z → option string)
    (machine_number eeprom_uid machine_number' eeprom_uid' : list byte)
    (cartridge : Cartridge Timestamp) (h h1 : heap) (l : loc) :
  (∀ key bs, length (crypto_decrypt key bs) = length bs) →
  encode checksum crypto_encrypt Timestamp ToDatetime id_from_name
         machine_number eeprom_uid cartridge h = (h1, Ok l) →
  length machine_number' = 8%nat → length eeprom_uid' = 8%nat →
  ∃ image key',
    h1 !! l = Some image ∧
    build_key (slice 0x48 0x50 image) machine_number' eeprom_uid' = Ok key' ∧
    decode checksum crypto_decrypt Timestamp FromDatetime name_from_id
           machine_number' eeprom_uid' l h1
      = (<[l := decrypted crypto_decrypt key' image]> h1,
         unpack_bytes checksum Timestamp FromDatetime name_from_id
           (decrypted crypto_decrypt key' image)).
Proof.
  intros Hdl Henc Hm Hd.
  unfold encode, mbind, M_bind in Henc.
  destruct (pack_body_run checksum Timestamp ToDatetime id_from_name
              cartridge h) as (bp & r & Hpack & HQ).
  rewrite Hpack in Henc. destruct r as [l0|e]; [|discriminate Henc].
  destruct HQ as (-> & idf & mfg & lu & kf & _ & Hlayout).
  cbv beta iota in Henc.
  lazymatch type of Henc with
  | context [encrypt _ _ _ _ ?l0 ?h0] =>
    destruct (encrypt_run checksum crypto_encrypt machine_number eeprom_uid
                l0 bp h0) as (image & r & Hrun & HQ);
      [apply lookup_insert_eq|];
    set (l0' := l0) in *
  end.
  rewrite Hrun in Henc. destruct r as [l1|e]; [|discriminate Henc].
  unfold mret, M_ret in Henc. injection Henc as <- <-.
  destruct HQ as (-> & _ & key & Hkey & _ & Hc1 & Hc2 & _ & Htok & _ & Hqtok
                  & Hsame).
  assert (Hlen : length image = 0x71%nat).
  { destruct Hsame as [-> _]. apply Hlayout. }
  destruct (build_key_succeeds (slice 0x48 0x50 image) machine_number'
              eeprom_uid') as (key' & Hkey' & _);
    [rewrite length_slice; lia | done | done |].
  exists image, key'. split; [apply lookup_insert_eq|]. split; [done|].
  rewrite (decode_run checksum crypto_decrypt Timestamp FromDatetime
             name_from_id Hdl machine_number' eeprom_uid' l0' _ image key'
             (lookup_insert_eq _ _ _) Hlen Hkey').
  cbv zeta.
  rewrite Htok, le_int_le_bytes_small by (simpl; lia). rewrite Z.eqb_refl.
  pose proof (same_outside_header_decrypted crypto_decrypt key' image Hdl)
    as Hs1.
  rewrite (slice_same_outside _ 88 96 _ _ Hs1) by (intros; lia).
  rewrite (slice_same_outside _ 96 98 _ _ Hs1) by (intros; lia).
  rewrite Hqtok, le_int_le_bytes_small by (simpl; lia). rewrite Z.eqb_refl.
  reflexivity.
Qed.

Lemma token_checks_ignore_identifiers_witness :
  ∃ image key',
    (Sample.sample_encode Sample.cartridge ∅).1 !! 1%positive = Some image ∧
    build_key (slice 0x48 0x50 image) Sample.eeprom_uid Sample.machine_number
      = Ok key'.
Proof.
  destruct (token_checks_ignore_identifiers Sample.sum16
              Sample.xor_cipher Sample.xor_cipher datetime id id
              Sample.materials Sample.material_names Sample.machine_number
              Sample.eeprom_uid Sample.eeprom_uid Sample.machine_number
              Sample.cartridge ∅ (Sample.sample_encode Sample.cartridge ∅).1
              1%positive)
    as (image & key' & Himage & Hkey' & _);
    [ apply xor_cipher_length | vm_compute; reflexivity | reflexivity
    | reflexivity | ].
  exists image, key'. split; assumption.
Defined.

(** ** The length of an image *)

Lemma slice_app_l i j (b e : list byte) :
  (j ≤ length b)%nat → slice i j (b ++ e) = slice i j b.
Proof.
  intros Hj. apply list_eq. intros k. rewrite !lookup_slice.
  case_decide; [|done]. apply lookup_app_l. lia.
Qed.

Lemma set_slice_app i j xs (b e : list byte) :
  (i ≤ j)%nat → (j ≤ length b)%nat →
  set_slice i j xs (b ++ e) = set_slice i j xs b ++ e.
Proof.
  intros Hij Hj. unfold set_slice.
  rewrite take_app_le, drop_app_le by lia. by rewrite <- !app_assoc.
Qed.

Lemma unpack_from_app n off (b e : list byte) :
  (off + n ≤ length b)%nat → unpack_from n off (b ++ e) = unpack_from n off b.
Proof.
  intros H. rewrite !unpack_from_fits by (rewrite ?length_app; lia).
  by rewrite slice_app_l.
Qed.

Section Length.
Variable checksum : list byte → Z.
Variable crypto_encrypt crypto_decrypt : list byte → list byte → list byte.
Variable Timestamp : Type.
Variable ToDatetime : Timestamp → datetime.
Variable FromDatetime : datetime → Timestamp.
Variable id_from_name : string → option Z.
Variable name_from_id : Z → option string.

Lemma unpack_bytes_Ok_length b c :
  unpack_bytes checksum Timestamp FromDatetime name_from_id b = Ok c →
  (0x71 ≤ length b)%nat.
Proof.
  unfold unpack_bytes, mbind, result_mbind, result_bind.
  repeat lazymatch goal with
  | |- match ?r with Ok _ => _ | Raise _ => _ end = Ok _ → _ =>
    let H := fresh "H" in
    destruct r eqn:H; [|discriminate]
  end.
  intros _.
  match goal with
  | H : unpack_from 9 _ b = Ok _ |- _ =>
    unfold unpack_from in H; case_decide; [lia | discriminate H]
  end.
Qed.

Lemma unpack_bytes_app b e :
  (0x71 ≤ length b)%nat →
  unpack_bytes checksum Timestamp FromDatetime name_from_id (b ++ e)
  = unpack_bytes checksum Timestamp FromDatetime name_from_id b.
Proof.
  intros H. unfold unpack_bytes.
  rewrite !slice_app_l by lia. by rewrite !unpack_from_app by (simpl; lia).
Qed.

End Length.

(** X17: [decode] returns a record only from an image of at least 113 bytes (the
    cipher returning as many bytes as it is given): on a shorter one it
    raises, whatever the bytes are. *)
Theorem decode_needs_113_bytes
    (checksum : list byte → Z)
    (crypto_decrypt : list byte → list byte → list byte)
    (Timestamp : Type) (FromDatetime : datetime → Timestamp)
    (name_from_id : Z → option string)
    (machine_number eeprom_uid : list byte) (l : loc) (h : heap)
    (b : list byte) :
  (∀ key bs, length (crypto_decrypt key bs) = length bs) →
  h !! l = Some b → (length b < 0x71)%nat →
  ∃ h' e,
    decode checksum crypto_decrypt Timestamp FromDatetime name_from_id
           machine_number eeprom_uid l h = (h', Raise e).
Proof.
  intros Hdl Hl Hlen.
  destruct (decrypt_run checksum crypto_decrypt machine_number eeprom_uid
              l b h Hl) as (b' & r & Hrun & HQ).
  unfold decode, mbind at 1, M_bind at 1. rewrite Hrun.
  destruct r as [l1|e]; [|eauto].
  destruct (build_key _ _ _) as [key|e]; [|by destruct HQ].
  destruct (unpack_H (slice 70 72 b)) as [stored|e]; [|by destruct HQ].
  destruct (checksum _ =? stored); [|by destruct HQ]. cbv zeta in HQ.
  destruct (unpack_H _) as [stored'|e]; [|by destruct HQ].
  destruct (checksum _ =? stored'); [|by destruct HQ].
  destruct HQ as [-> [= ->]].
  unfold unpack, load, lift, mbind, M_bind. rewrite lookup_insert_eq.
  destruct (unpack_bytes _ _ _ _ _) as [c|e] eqn:E; [|eauto].
  apply unpack_bytes_Ok_length in E. rewrite length_decrypted in E by done.
  lia.
Qed.

Lemma decode_needs_113_bytes_witness :
  ∃ h' e,
    Sample.sample_decode 1%positive {[1%positive := take 0x70 Sample.crypted]}
      = (h', Raise e).
Proof.
  apply (decode_needs_113_bytes Sample.sum16 Sample.xor_cipher datetime id
           Sample.material_names Sample.machine_number Sample.eeprom_uid
           1%positive {[1%positive := take 0x70 Sample.crypted]}
           (take 0x70 Sample.crypted) xor_cipher_length);
    [vm_compute; reflexivity | vm_compute; lia].
Defined.

Lemma decrypted_app
    (crypto_decrypt : list byte → list byte → list byte) key (b e : list byte) :
  (∀ key bs, length (crypto_decrypt key bs) = length bs) →
  (0x60 ≤ length b)%nat →
  decrypted crypto_decrypt key (b ++ e) = decrypted crypto_decrypt key b ++ e.
Proof.
  intros Hdl Hlen. unfold decrypted. cbv zeta.
  rewrite slice_app_l, (set_slice_app 0 64) by lia.
  fold (header_decrypted crypto_decrypt key b).
  rewrite slice_app_l, (set_slice_app 88 96)
    by (rewrite ?length_header_decrypted by done; lia).
  reflexivity.
Qed.

(** X18: [decode] reads nothing past byte 0x71: on an image followed by further
    bytes it answers as on the image alone, and leaves those bytes in place
    behind what it leaves of the image. *)
Theorem decode_ignores_trailing_bytes
    (checksum : list byte → Z)
    (crypto_decrypt : list byte → list byte → list byte)
    (Timestamp : Type) (FromDatetime : datetime → Timestamp)
    (name_from_id : Z → option string)
    (machine_number eeprom_uid : list byte) (l : loc) (h : heap)
    (b extra : list byte) :
  (∀ key bs, length (crypto_decrypt key bs) = length bs) →
  h !! l = Some (b ++ extra) → length b = 0x71%nat →
  ∃ b' r,
    decode checksum crypto_decrypt Timestamp FromDatetime name_from_id
           machine_number eeprom_uid l (<[l := b]> h) = (<[l := b']> h, r) ∧
    decode checksum crypto_decrypt Timestamp FromDatetime name_from_id
           machine_number eeprom_uid l h = (<[l := b' ++ extra]> h, r).
Proof.
  intros Hdl Hl Hlen.
  destruct (decrypt_run checksum crypto_decrypt machine_number eeprom_uid
              l b (<[l := b]> h)) as (b1 & r1 & Hrun1 & HQ1);
    [apply lookup_insert_eq|].
  destruct (decrypt_run checksum crypto_decrypt machine_number eeprom_uid
              l (b ++ extra) h Hl) as (b2 & r2 & Hrun2 & HQ2).
  rewrite insert_insert_eq in Hrun1.
  cbv zeta in HQ1, HQ2.
  rewrite !(slice_app_l _ _ b extra) in HQ2 by lia.
  unfold decode, mbind at 1 3, M_bind at 1 3. rewrite Hrun1, Hrun2.
  destruct (build_key _ _ _) as [key|e].
  2: { destruct HQ1 as [-> ->], HQ2 as [-> ->]. eauto. }
  destruct (unpack_H (slice 70 72 b)) as [stored|e].
  2: { destruct HQ1 as [-> ->], HQ2 as [-> ->]. eauto. }
  destruct (checksum _ =? stored).
  2: { destruct HQ1 as [-> ->], HQ2 as [-> ->]. eauto. }
  rewrite (set_slice_app 0 64) in HQ2 by lia.
  fold (header_decrypted crypto_decrypt key b) in HQ1, HQ2.
  assert (Hh : length (header_decrypted crypto_decrypt key b) = 0x71%nat)
    by (by rewrite length_header_decrypted).
  rewrite !(slice_app_l _ _ (header_decrypted crypto_decrypt key b) extra)
    in HQ2 by (rewrite Hh; lia).
  destruct (unpack_H _) as [stored'|e].
  2: { destruct HQ1 as [-> ->], HQ2 as [-> ->]. eauto. }
  destruct (checksum _ =? stored').
  2: { destruct HQ1 as [-> ->], HQ2 as [-> ->]. eauto. }
  rewrite decrypted_app in HQ2 by (done || lia).
  destruct HQ1 as [-> ->], HQ2 as [-> ->].
  unfold unpack, load, lift, mbind, M_bind. rewrite !lookup_insert_eq.
  rewrite unpack_bytes_app by (rewrite length_decrypted; [lia | done]).
  exists (decrypted crypto_decrypt key b).
  destruct (unpack_bytes _ _ _ _ _) as [c|e]; eauto.
Qed.

Lemma decode_ignores_trailing_bytes_witness :
  ∃ b' r,
    Sample.sample_decode 1%positive
      (<[1%positive := Sample.crypted]>
         {[1%positive := Sample.crypted ++ [xff; xfe]]})
      = (<[1%positive := b']>
           {[1%positive := Sample.crypted ++ [xff; xfe]]}, r) ∧
    Sample.sample_decode 1%positive
      {[1%positive := Sample.crypted ++ [xff; xfe]]}
      = (<[1%positive := b' ++ [xff; xfe]]>
           {[1%positive := Sample.crypted ++ [xff; xfe]]}, r).
Proof.
  apply (decode_ignores_trailing_bytes Sample.sum16 Sample.xor_cipher datetime
           id Sample.material_names Sample.machine_number Sample.eeprom_uid
           1%positive {[1%positive := Sample.crypted ++ [xff; xfe]]}
           Sample.crypted [xff; xfe] xor_cipher_length);
    vm_compute; reflexivity.
Defined.

(** X19: [encode] fails only where [pack] fails: with a machine number of at
    least 8 bytes and an EEPROM identifier of at least 7 (and a checksum on
    16 bits), [encode] returns an image exactly when [pack] returns a
    buffer, and it is the same object. *)
Theorem encode_fails_only_in_pack
    (checksum : list byte → Z)
    (crypto_encrypt : list byte → list byte → list byte)
    (Timestamp : Type) (ToDatetime : Timestamp → datetime)
    (id_from_name : string → option Z)
    (machine_number eeprom_uid : list byte) (cartridge : Cartridge Timestamp)
    (h : heap) (l : loc) :
  (∀ bs, 0 <= checksum bs <= 0xffff) →
  (8 ≤ length machine_number)%nat → (7 ≤ length eeprom_uid)%nat →
  (∃ h1, pack checksum Timestamp ToDatetime id_from_name cartridge h
           = (h1, Ok l)) ↔
  (∃ h2, encode checksum crypto_encrypt Timestamp ToDatetime id_from_name
                machine_number eeprom_uid cartridge h = (h2, Ok l)).
Proof.
  intros Hrange Hm Hd.
  destruct (pack_body_run checksum Timestamp ToDatetime id_from_name
              cartridge h) as (b & r & Hpack & HQ).
  unfold encode, mbind, M_bind. rewrite Hpack.
  destruct r as [l0|e]; [|split; intros (? & [=])].
  destruct HQ as (-> & idf & mfg & lu & kf & _ & Hlayout).
  assert (Hlen : length b = 0x71%nat) by apply Hlayout.
  set (l0 := fresh (dom h)) in *.
  match goal with
  | |- context [encrypt _ _ _ _ l0 ?h0] =>
    destruct (encrypt_run checksum crypto_encrypt machine_number eeprom_uid
                l0 b h0) as (image & r & Hrun & HQ);
      [apply lookup_insert_eq|]
  end.
  rewrite Hrun. destruct r as [l1|e].
  - destruct HQ as (-> & _). unfold mret, M_ret.
    split; intros (? & [= _ ->]); eauto.
  - exfalso. specialize (HQ ltac:(lia) Hrange).
    destruct (build_key_enough (slice 0x48 0x50 b) machine_number eeprom_uid)
      as (key & Hkey & _); [rewrite length_slice; lia | done | done |].
    congruence.
Qed.

Lemma encode_fails_only_in_pack_witness :
  ∃ h2, Sample.sample_encode Sample.cartridge ∅ = (h2, Ok 1%positive).
Proof.
  refine (proj1 (encode_fails_only_in_pack Sample.sum16 Sample.xor_cipher
                   datetime id Sample.materials Sample.machine_number
                   Sample.eeprom_uid Sample.cartridge ∅ 1%positive
                   sum16_uint16 _ _) _);
    [simpl; lia | simpl; lia |].
  exists (Sample.sample_pack Sample.cartridge ∅).1. vm_compute. reflexivity.
Defined.
